(** * SSE transport of the MCP durable-object client

    A shallow embedding of [src/transport.ts] (class
    [ServerSentEventsTransport]) and of the session list kept by
    [server/mcp-server.ts], with the properties of the transport state
    machine stated over it.

    Conventions.
    - A JavaScript string is a [string]: the sequence of its UTF-8 bytes
      (for header values, which are byte strings, one [ascii] per byte).
      [new TextEncoder().encode] is therefore the identity on the bytes.
    - An [async] method is run to completion: it either returns a value or
      throws (its promise rejects).  State changes made before a throw are
      kept, as in JavaScript.  [start], [send] and [close] contain no
      [await], so nothing can run in the middle of them; [handlePostMessage]
      is taken without interleaving at its two [await]s.
    - The three handler fields [onmessage], [onclose], [onerror] are
      optional.  An installed handler is an observer: calling it is recorded
      in the trace of the world, it returns normally and does not call back
      into the transport.
    - The [ReadableStream] behind [eventStream] follows the WHATWG Streams
      standard for a stream with a default controller and an underlying
      source that has [start] and [cancel] but no [pull].
    - The getter [sseResponse] only wraps [eventStream] in a [Response]; it
      changes nothing and is left out. *)

From Stdlib Require Import String Ascii List ZArith Lia Bool Arith DecimalString.
Import ListNotations.
Open Scope string_scope.

(** ** JavaScript strings *)

Definition LF : string := String "010"%char EmptyString.

(** [s.includes(needle)] *)
Fixpoint includes (s needle : string) : bool :=
  if String.prefix needle s then true
  else match s with
       | EmptyString => false
       | String _ rest => includes rest needle
       end.

(** [a || b] on a value that is a string or [null]: the empty string and
    [null] are both falsy. *)
Definition or_else (v : option string) (dflt : string) : string :=
  match v with
  | Some (String c s) => String c s
  | _ => dflt
  end.

Definition is_upper (c : ascii) : bool :=
  let n := nat_of_ascii c in (65 <=? n)%nat && (n <=? 90)%nat.
Definition is_lower (c : ascii) : bool :=
  let n := nat_of_ascii c in (97 <=? n)%nat && (n <=? 122)%nat.
Definition is_digit (c : ascii) : bool :=
  let n := nat_of_ascii c in (48 <=? n)%nat && (n <=? 57)%nat.

Definition lower_ascii (c : ascii) : ascii :=
  if is_upper c then ascii_of_nat (nat_of_ascii c + 32) else c.

Fixpoint byte_lowercase (s : string) : string :=
  match s with
  | EmptyString => EmptyString
  | String c rest => String (lower_ascii c) (byte_lowercase rest)
  end.

(** *** [encodeURI]

    Every byte of the UTF-8 form is escaped as [%XX] except the characters
    the standard leaves alone: letters, digits, the marks
    [- _ . ! ~ * ' ( )], the reserved [; / ? : @ & = + $ ,] and [#]. *)

Definition uri_marks : string := "-_.!~*'();/?:@&=+$,#".

Fixpoint mem_ascii (c : ascii) (s : string) : bool :=
  match s with
  | EmptyString => false
  | String d rest => if Ascii.eqb c d then true else mem_ascii c rest
  end.

Definition uri_kept (c : ascii) : bool :=
  is_upper c || is_lower c || is_digit c || mem_ascii c uri_marks.

Definition hex_digit (n : nat) : ascii :=
  match String.get n "0123456789ABCDEF" with
  | Some c => c
  | None => "0"%char
  end.

Definition percent_encode (c : ascii) : string :=
  let n := nat_of_ascii c in
  String "%" (String (hex_digit (n / 16)) (String (hex_digit (n mod 16)) EmptyString)).

Fixpoint encodeURI (s : string) : string :=
  match s with
  | EmptyString => EmptyString
  | String c rest =>
      (if uri_kept c then String c EmptyString else percent_encode c)
        ++ encodeURI rest
  end.

(** A string [encodeURI] has nothing to escape in. *)
Fixpoint uri_plain (s : string) : bool :=
  match s with
  | EmptyString => true
  | String c rest => uri_kept c && uri_plain rest
  end.

(** *** [Number.parseInt(s, 10)]

    Leading white space is skipped, then an optional sign, then the longest
    run of decimal digits; no digit at all gives [NaN], here [None].  The
    result is the integer the digits denote.  JavaScript rounds it to a
    double; rounding is monotone and 4194304 is a double, so comparing the
    integer with [MAX_MSG_SIZE] decides the same way. *)

Definition is_white (c : ascii) : bool :=
  let n := nat_of_ascii c in
  ((9 <=? n)%nat && (n <=? 13)%nat) || (n =? 32)%nat || (n =? 160)%nat.

Fixpoint skip_white (s : string) : string :=
  match s with
  | EmptyString => EmptyString
  | String c rest => if is_white c then skip_white rest else s
  end.

Definition digit_value (c : ascii) : option Z :=
  if is_digit c then Some (Z.of_nat (nat_of_ascii c) - 48)%Z else None.

Fixpoint digits (s : string) (acc : option Z) : option Z :=
  match s with
  | EmptyString => acc
  | String c rest =>
      match digit_value c with
      | Some d =>
          digits rest (Some (10 * (match acc with Some a => a | None => 0 end) + d)%Z)
      | None => acc
      end
  end.

Definition parseInt10 (s : string) : option Z :=
  match skip_white s with
  | String "-"%char rest => option_map Z.opp (digits rest None)
  | String "+"%char rest => digits rest None
  | s1 => digits s1 None
  end.

(** [n > bound] on a number that may be [NaN]: every comparison with [NaN]
    is false. *)
Definition number_gt (n : option Z) (bound : Z) : bool :=
  match n with
  | Some z => (bound <? z)%Z
  | None => false
  end.

(** ** Errors and thrown values *)

Record JsError := mkError { name : string; message : string }.

(** What a [catch] clause receives: an [Error] instance or any other value,
    for which only [String(value)] matters to the transport. *)
Inductive Thrown :=
| ThrownError (e : JsError)
| ThrownValue (text : string).

(** [error instanceof Error ? error : new Error(String(error))] *)
Definition to_Error (t : Thrown) : JsError :=
  match t with
  | ThrownError e => e
  | ThrownValue text => mkError "Error" text
  end.

(** [error instanceof Error ? error.message : String(error)] *)
Definition thrown_message (t : Thrown) : string :=
  match t with
  | ThrownError e => message e
  | ThrownValue text => text
  end.

(** The three errors the transport raises itself.  The source throws plain
    [Error]s; the names are the ones the specification gives them. *)
Definition AlreadyActiveError : JsError :=
  mkError "Error" "Transport already active - cannot start again".
Definition StreamUnavailableError : JsError :=
  mkError "Error" "Stream initialization failed - controller not available".
Definition NotConnectedError : JsError :=
  mkError "Error" "Cannot send: transport not connected".

(** Raised by the stream controller when [enqueue] or [close] is called on
    a stream that cannot take it.  The message text is the runtime's. *)
Definition StreamTypeError : JsError :=
  mkError "TypeError" "Invalid state: the stream is closed or closing".

(** ** HTTP requests and responses *)

Definition Headers := list (string * string).

Definition header_values (h : Headers) (field : string) : list string :=
  map snd
    (filter (fun kv => String.eqb (byte_lowercase (fst kv)) (byte_lowercase field)) h).

(** [headers.get(field)]: field names compare without case, several values
    are joined by a comma and a space, [null] when the field is absent. *)
Definition Headers_get (h : Headers) (field : string) : option string :=
  match header_values h field with
  | [] => None
  | vs => Some (String.concat ", " vs)
  end.

Record Request := mkRequest { req_headers : Headers; req_body : string }.

Record Response := mkResponse { resp_body : string; resp_status : Z }.

(** Maximum allowed message size (4MB) *)
Definition MAX_MSG_SIZE : Z := 4 * 1024 * 1024.

(** ** What the transport takes from the runtime and the SDK

    [JSON.stringify], [request.json()] and [JSONRPCMessageSchema.parse] are
    not part of the repository; the development is parametric in them. *)

Class Platform := {
  JSONRPCMessage : Type;
  JsValue : Type;
  (** [JSON.stringify(message)] on a validated message *)
  JSON_stringify : JSONRPCMessage -> string;
  (** [await request.json()] on the bytes of the body *)
  Body_json : string -> Thrown + JsValue;
  (** [JSONRPCMessageSchema.parse(rawMessage)] *)
  JSONRPCMessageSchema_parse : JsValue -> Thrown + JSONRPCMessage;
  (** the text of a number inside a template literal *)
  Number_toString : Z -> string
}.

(** ** The readable stream behind [eventStream] *)

Inductive StreamState := Readable | StreamClosed.

(** Handle on the controller of the transport's own stream, the value the
    [start] callback of the underlying source receives. *)
Inductive Controller := ControllerOfEventStream.

Record ReadableStream := mkStream {
  rs_state : StreamState;          (* [[state]] *)
  rs_locked : bool;                (* a reader holds the stream *)
  rs_queue : list string;          (* [[queue]]: chunks not yet read *)
  rs_closeRequested : bool;        (* [[closeRequested]] *)
  rs_delivered : list string       (* chunks the reader has taken *)
}.

(** ReadableStreamDefaultControllerCanCloseOrEnqueue *)
Definition can_close_or_enqueue (s : ReadableStream) : bool :=
  match rs_state s with
  | Readable => negb (rs_closeRequested s)
  | StreamClosed => false
  end.

(** Every chunk the stream has been given and not dropped, oldest first. *)
Definition chunks (s : ReadableStream) : list string :=
  rs_delivered s ++ rs_queue s.

(** ** Completions: a method returns or throws *)

Inductive Completion (A : Type) :=
| Returns (a : A)
| Throws (t : Thrown).
Arguments Returns {A} a.
Arguments Throws {A} t.

Section Transport.

Context {platform : Platform}.

(** ** The transport object and its world *)

Record Transport := mkTransport {
  endpointUrl : string;
  sessionId : string;
  streamController : option Controller;
  eventStream : ReadableStream;
  isActive : bool;
  (* handler fields: [true] when a function is installed *)
  onmessage : bool;
  onclose : bool;
  onerror : bool
}.

(** Calls the transport makes on its collaborators. *)
Inductive Event :=
| CallOnmessage (m : JSONRPCMessage)
| CallOnclose
| CallOnerror (e : JsError)
| BodyRead.                        (* [request.json()] consumed the body *)

Record World := mkWorld { self : Transport; trace : list Event }.

Definition with_stream (s : ReadableStream) (t : Transport) : Transport :=
  mkTransport (endpointUrl t) (sessionId t) (streamController t) s
              (isActive t) (onmessage t) (onclose t) (onerror t).

Definition with_isActive (b : bool) (t : Transport) : Transport :=
  mkTransport (endpointUrl t) (sessionId t) (streamController t) (eventStream t)
              b (onmessage t) (onclose t) (onerror t).

Definition with_handlers (m c e : bool) (t : Transport) : Transport :=
  mkTransport (endpointUrl t) (sessionId t) (streamController t) (eventStream t)
              (isActive t) m c e.

(** A method is a function of the world: it completes and leaves a world. *)
Definition M (A : Type) : Type := World -> Completion A * World.

Definition ret {A} (a : A) : M A := fun w => (Returns a, w).

Definition throw {A} (t : Thrown) : M A := fun w => (Throws t, w).

Definition bind {A B} (c : M A) (k : A -> M B) : M B :=
  fun w =>
    match c w with
    | (Returns a, w1) => k a w1
    | (Throws t, w1) => (Throws t, w1)
    end.

Definition try_catch {A} (c : M A) (handler : Thrown -> M A) : M A :=
  fun w =>
    match c w with
    | (Returns a, w1) => (Returns a, w1)
    | (Throws t, w1) => handler t w1
    end.

Notation "x <- c ;; k" := (bind c (fun x => k))
  (at level 61, c at next level, right associativity).
Notation "c ;; k" := (bind c (fun _ => k))
  (at level 61, right associativity).

Definition this : M Transport := fun w => (Returns (self w), w).

Definition update (f : Transport -> Transport) : M unit :=
  fun w => (Returns tt, mkWorld (f (self w)) (trace w)).

Definition emit (e : Event) : M unit :=
  fun w => (Returns tt, mkWorld (self w) (trace w ++ [e])).

(** [this.onclose?.()], [this.onerror?.(e)], [this.onmessage?.(m)] *)
Definition call_onclose : M unit :=
  t <- this ;; if onclose t then emit CallOnclose else ret tt.

Definition call_onerror (e : JsError) : M unit :=
  t <- this ;; if onerror t then emit (CallOnerror e) else ret tt.

Definition call_onmessage (m : JSONRPCMessage) : M unit :=
  t <- this ;; if onmessage t then emit (CallOnmessage m) else ret tt.

(** ** Stream operations the transport uses *)

(** [controller.enqueue(chunk)] *)
Definition controller_enqueue (chunk : string) : M unit :=
  t <- this ;;
  let s := eventStream t in
  if can_close_or_enqueue s then
    update (with_stream
      (mkStream (rs_state s) (rs_locked s) (rs_queue s ++ [chunk])
                (rs_closeRequested s) (rs_delivered s)))
  else throw (ThrownError StreamTypeError).

(** [controller.close()]: the stream closes at once when nothing is queued,
    otherwise when the queue has been read out. *)
Definition controller_close : M unit :=
  t <- this ;;
  let s := eventStream t in
  if can_close_or_enqueue s then
    update (with_stream
      (mkStream (match rs_queue s with [] => StreamClosed | _ => rs_state s end)
                (rs_locked s) (rs_queue s) true (rs_delivered s)))
  else throw (ThrownError StreamTypeError).

(** The [cancel] callback given to the [ReadableStream] constructor
    (transport.ts, lines 41-44). *)
Definition underlying_cancel : M unit :=
  update (with_isActive false) ;;
  call_onclose.

(** ReadableStreamCancel: nothing on a closed stream; otherwise the stream
    closes, the queue is dropped and the source's [cancel] runs. *)
Definition ReadableStreamCancel : M unit :=
  t <- this ;;
  let s := eventStream t in
  match rs_state s with
  | StreamClosed => ret tt
  | Readable =>
      update (with_stream
        (mkStream StreamClosed (rs_locked s) [] (rs_closeRequested s)
                  (rs_delivered s))) ;;
      underlying_cancel
  end.

(** [this.eventStream.cancel()]: on a locked stream the call only returns a
    rejected promise, which [close] does not look at. *)
Definition eventStream_cancel : M unit :=
  t <- this ;;
  if rs_locked (eventStream t) then ret tt else ReadableStreamCancel.

(** ** The methods of [ServerSentEventsTransport] *)

(** The constructor: the stream's [start] callback runs inside
    [new ReadableStream(...)] and stores the controller. *)
Definition new_stream : ReadableStream := mkStream Readable false [] false [].

Definition new_transport (endpointUrl sessionId : string) : World :=
  mkWorld
    (mkTransport endpointUrl sessionId (Some ControllerOfEventStream) new_stream
                 false false false false)
    [].

Definition TextEncoder_encode (s : string) : string := s.

Definition endpoint_event (t : Transport) : string :=
  "event: endpoint" ++ LF ++ "data: " ++ encodeURI (endpointUrl t)
    ++ "?sessionId=" ++ sessionId t ++ LF ++ LF.

Definition start : M unit :=
  t <- this ;;
  if isActive t then throw (ThrownError AlreadyActiveError)
  else
    match streamController t with
    | None => throw (ThrownError StreamUnavailableError)
    | Some _ =>
        let connectionInfo := endpoint_event t in
        controller_enqueue (TextEncoder_encode connectionInfo) ;;
        update (with_isActive true)
    end.

(** [this.#isActive && this.#streamController], the guard of [close]; [send]
    and [handlePostMessage] test its negation,
    [!this.#isActive || !this.#streamController]. *)
Definition connected (t : Transport) : bool :=
  isActive t && match streamController t with Some _ => true | None => false end.

Definition message_event (m : JSONRPCMessage) : string :=
  "event: message" ++ LF ++ "data: " ++ JSON_stringify m ++ LF ++ LF.

Definition send (m : JSONRPCMessage) : M unit :=
  t <- this ;;
  if negb (connected t) then throw (ThrownError NotConnectedError)
  else
    let formattedMessage := message_event m in
    controller_enqueue (TextEncoder_encode formattedMessage).

Definition close : M unit :=
  t <- this ;;
  if connected t then
    controller_close ;;
    eventStream_cancel ;;
    update (with_isActive false) ;;
    call_onclose
  else ret tt.

Definition lift_result {A} (r : Thrown + A) : M A :=
  match r with
  | inl t => throw t
  | inr a => ret a
  end.

Definition handleMessage (rawMessage : JsValue) : M unit :=
  try_catch
    (validatedMessage <- lift_result (JSONRPCMessageSchema_parse rawMessage) ;;
     call_onmessage validatedMessage)
    (fun validationError =>
       let error := to_Error validationError in
       call_onerror error ;;
       throw (ThrownError error)).

(** [await request.json()] *)
Definition request_json (request : Request) : M JsValue :=
  emit BodyRead ;;
  lift_result (Body_json (req_body request)).

Definition handlePostMessage (request : Request) : M Response :=
  t <- this ;;
  if negb (connected t) then
    ret (mkResponse "SSE connection not established" 503)
  else
    try_catch
      (let contentType := or_else (Headers_get (req_headers request) "content-type") "" in
       if negb (includes contentType "application/json") then
         ret (mkResponse ("Invalid content type: " ++ contentType) 415)
       else
         let contentLength :=
           parseInt10 (or_else (Headers_get (req_headers request) "content-length") "0") in
         if number_gt contentLength MAX_MSG_SIZE then
           ret (mkResponse
                  ("Message exceeds size limit ("
                     ++ Number_toString (match contentLength with Some z => z | None => 0%Z end)
                     ++ " > " ++ Number_toString MAX_MSG_SIZE ++ ")")
                  413)
         else
           messageData <- request_json request ;;
           handleMessage messageData ;;
           ret (mkResponse "Message processed" 202))
      (fun error =>
         call_onerror (to_Error error) ;;
         ret (mkResponse ("Error processing message: " ++ thrown_message error) 400)).

(** ** The peer: the runtime that pipes [eventStream] to the client *)

(** [stream.getReader()] when the response body starts to be sent. *)
Definition peer_lock : M unit :=
  t <- this ;;
  let s := eventStream t in
  update (with_stream
    (mkStream (rs_state s) true (rs_queue s) (rs_closeRequested s) (rs_delivered s))).

(** [reader.read()] of a queued chunk; the stream closes when a requested
    close finds the queue read out. *)
Definition peer_read : M unit :=
  t <- this ;;
  let s := eventStream t in
  match rs_locked s, rs_queue s with
  | true, chunk :: rest =>
      update (with_stream
        (mkStream
           (match rest with
            | [] => if rs_closeRequested s then StreamClosed else rs_state s
            | _ => rs_state s
            end)
           true rest (rs_closeRequested s) (rs_delivered s ++ [chunk])))
  | _, _ => ret tt
  end.

(** The client drops the connection: the reader cancels the stream. *)
Definition peer_cancel : M unit := ReadableStreamCancel.

(** ** Runs *)

Inductive Action :=
| SetHandlers (has_onmessage has_onclose has_onerror : bool)
| DoStart
| DoSend (m : JSONRPCMessage)
| DoClose
| DoPost (request : Request)
| DoHandleMessage (rawMessage : JsValue)
| PeerLock
| PeerRead
| PeerCancel.

Definition exec (a : Action) (w : World) : World :=
  match a with
  | SetHandlers m c e => snd (update (with_handlers m c e) w)
  | DoStart => snd (start w)
  | DoSend m => snd (send m w)
  | DoClose => snd (close w)
  | DoPost request => snd (handlePostMessage request w)
  | DoHandleMessage raw => snd (handleMessage raw w)
  | PeerLock => snd (peer_lock w)
  | PeerRead => snd (peer_read w)
  | PeerCancel => snd (peer_cancel w)
  end.

Definition run (actions : list Action) (w : World) : World :=
  fold_left (fun w a => exec a w) actions w.

Inductive reachable : World -> Prop :=
| reach_new (endpointUrl sessionId : string) :
    reachable (new_transport endpointUrl sessionId)
| reach_step (a : Action) (w : World) :
    reachable w -> reachable (exec a w).

(** The session states of the specification, read off the fields. *)
Inductive SessionState := Uninitialized | Active | Closed.

Definition session_state (t : Transport) : SessionState :=
  if isActive t then Active
  else if can_close_or_enqueue (eventStream t) then Uninitialized
  else Closed.

(** While the transport is active its stream takes chunks. *)
Definition active_stream_open (w : World) : Prop :=
  isActive (self w) = true ->
  streamController (self w) <> None /\
  can_close_or_enqueue (eventStream (self w)) = true.

Definition is_onclose (e : Event) : bool :=
  match e with CallOnclose => true | _ => false end.

Definition is_onerror (e : Event) : bool :=
  match e with CallOnerror _ => true | _ => false end.

Definition is_onmessage (e : Event) : bool :=
  match e with CallOnmessage _ => true | _ => false end.

Definition count (p : Event -> bool) (tr : list Event) : nat :=
  length (filter p tr).

(** The two header values [handlePostMessage] looks at. *)
Definition content_type (request : Request) : string :=
  or_else (Headers_get (req_headers request) "content-type") "".

Definition declared_length (request : Request) : option Z :=
  parseInt10 (or_else (Headers_get (req_headers request) "content-length") "0").

(** The two gates in front of the body: [contentType.includes(...)] and
    [contentLength > MAX_MSG_SIZE]. *)
Definition json_content_type (request : Request) : bool :=
  includes (content_type request) "application/json".

Definition declared_oversize (request : Request) : bool :=
  number_gt (declared_length request) MAX_MSG_SIZE.

(** The HTTP status a call to [handlePostMessage] answers with. *)
Definition answered_status (r : Completion Response * World) : option Z :=
  match fst r with
  | Returns response => Some (resp_status response)
  | Throws _ => None
  end.

(** What the handlers see of a body that got past the gates. *)
Definition decode_events (t : Transport) (body : string) : list Event :=
  match Body_json body with
  | inl reason =>
      if onerror t then [CallOnerror (to_Error reason)] else []
  | inr v =>
      match JSONRPCMessageSchema_parse v with
      | inl reason =>
          if onerror t
          then [CallOnerror (to_Error reason); CallOnerror (to_Error reason)]
          else []
      | inr m => if onmessage t then [CallOnmessage m] else []
      end
  end.

Definition decode_response (body : string) : Response :=
  match Body_json body with
  | inl reason =>
      mkResponse ("Error processing message: " ++ thrown_message reason) 400
  | inr v =>
      match JSONRPCMessageSchema_parse v with
      | inl reason =>
          mkResponse ("Error processing message: " ++ thrown_message reason) 400
      | inr _ => mkResponse "Message processed" 202
      end
  end.

End Transport.

(** ** A platform to run on

    For concrete runs: a JSON value is kept as its text, a body counts as
    JSON when it opens with a brace, and as a JSON-RPC message when it
    mentions [jsonrpc].  The statements below hold for every platform. *)

Definition sample_platform : Platform := {|
  JSONRPCMessage := string;
  JsValue := string;
  JSON_stringify := fun m => m;
  Body_json := fun body =>
    match body with
    | String "{"%char _ => inr body
    | _ => inl (ThrownError (mkError "SyntaxError" "Unexpected token"))
    end;
  JSONRPCMessageSchema_parse := fun v =>
    if includes v "jsonrpc" then inr v
    else inl (ThrownError (mkError "ZodError" "Invalid input"));
  Number_toString := fun z => DecimalString.NilZero.string_of_int (Z.to_int z)
|}.

(** A body of [n + 1] bytes that opens with a brace. *)
Fixpoint padding (n : nat) : string :=
  match n with
  | O => EmptyString
  | S k => String "a"%char (padding k)
  end.

Definition long_body (n : nat) : string := String "{"%char (padding n).

(** Worlds and requests for the concrete runs. *)
Definition fresh_world : @World sample_platform :=
  new_transport "https://host.example/message" "abc".

Definition started_world : @World sample_platform :=
  run [SetHandlers true true true; DoStart] fresh_world.

Definition json_headers : Headers := [("Content-Type", "application/json")].

Definition json_post (body : string) : Request := mkRequest json_headers body.

Definition plain_post (body : string) : Request :=
  mkRequest [("Content-Type", "text/plain"); ("Content-Length", "4194305")] body.

Definition declared_post (body : string) : Request :=
  mkRequest [("Content-Type", "application/json"); ("Content-Length", "4194305")] body.

(** A body of 4 MiB and one byte. *)
Definition oversized_body : string := long_body (N.to_nat 4194304).

(** ** The session list of the reference server ([server/mcp-server.ts]) *)

Module ReferenceServer.

(** An [McpServer] object: which object it is, and the session id of the
    transport it is connected to. *)
Record McpServer := mkServer { server_ref : nat; transport_sessionId : string }.

(** [servers.push(server)] on a new SSE connection *)
Definition register (server : McpServer) (servers : list McpServer) : list McpServer :=
  servers ++ [server].

(** [servers = servers.filter((s) => s !== server)] in [onclose] *)
Definition unregister (server : McpServer) (servers : list McpServer) : list McpServer :=
  filter (fun s => negb (server_ref s =? server_ref server)%nat) servers.

(** [servers.map(...).find((t) => t.sessionId === sessionId)] in the POST
    route; [None] is answered with status 404. *)
Definition lookup (sessionId : string) (servers : list McpServer) : option McpServer :=
  find (fun s => String.eqb (transport_sessionId s) sessionId) servers.

Definition entries (sessionId : string) (servers : list McpServer) : list McpServer :=
  filter (fun s => String.eqb (transport_sessionId s) sessionId) servers.

(** Two server objects whose transports carry the same session id. *)
Definition first_server : McpServer := mkServer 1 "3f2a".
Definition second_server : McpServer := mkServer 2 "3f2a".

End ReferenceServer.

(** * More of the code

    The rest of [src/transport.ts], the durable object of
    [src/mcp-server-do.ts] that owns a transport, the POST route of the
    reference server and the connection guard of the chat agent in
    [src/server.ts]. *)

(** ** Strings *)

Fixpoint string_forall (p : ascii -> bool) (s : string) : bool :=
  match s with
  | EmptyString => true
  | String c rest => p c && string_forall p rest
  end.

(** [encodeURI] throws [URIError] on a string with a lone surrogate.  UTF-8
    has no form for one; a byte string could only carry it in the
    generalized three-byte form, the byte 237 followed by a byte from 160
    to 191.  [well_formed_unicode] holds of the strings without such a
    pair: the strings [encodeURI] returns on, and the ones [encodeURI]
    above is the model of. *)
Fixpoint well_formed_unicode (s : string) : bool :=
  match s with
  | EmptyString => true
  | String c rest =>
      negb ((nat_of_ascii c =? 237)%nat &&
            match rest with
            | EmptyString => false
            | String d _ =>
                (160 <=? nat_of_ascii d)%nat && (nat_of_ascii d <=? 191)%nat
            end)
      && well_formed_unicode rest
  end.

(** What [encodeURI] can put out: a character it keeps, or the percent sign
    of an escape. *)
Definition uri_output_char (c : ascii) : bool :=
  uri_kept c || Ascii.eqb c "%"%char.

Fixpoint string_drop (n : nat) (s : string) : string :=
  match n, s with
  | O, _ => s
  | S k, EmptyString => EmptyString
  | S k, String _ rest => string_drop k rest
  end.

(** [s.replace(pattern, replacement)] with a string pattern: the leftmost
    occurrence only.  The replacement must hold no dollar sign, which
    JavaScript would expand. *)
Fixpoint replace_first (s pattern replacement : string) : string :=
  if String.prefix pattern s then
    replacement ++ string_drop (String.length pattern) s
  else match s with
       | EmptyString => EmptyString
       | String c rest => String c (replace_first rest pattern replacement)
       end.

(** [s.endsWith(suffix)] *)
Fixpoint endsWith (s suffix : string) : bool :=
  if String.eqb s suffix then true
  else match s with
       | EmptyString => false
       | String _ rest => endsWith rest suffix
       end.

Section Lifetime.

Context {platform : Platform}.

(** ** How many [onclose] calls a transport still has in it

    [close] calls [onclose] itself only from [Active], and the transport
    can be or become active only while its stream takes chunks; the
    [cancel] callback runs only on a readable stream. *)
Definition close_calls_left (t : Transport) : nat :=
  if isActive t || can_close_or_enqueue (eventStream t) then 1 else 0.

Definition cancel_calls_left (t : Transport) : nat :=
  match rs_state (eventStream t) with
  | Readable => 1
  | StreamClosed => 0
  end.

(** ** The durable object *)

(** What [fetch] answers with: the event stream under its headers, or a
    plain response. *)
Inductive FetchResponse :=
| SseResponse (headers : Headers)
| HttpResponse (response : Response).

(** The getter [sseResponse].  Its guard [!this.eventStream] never holds:
    the constructor always assigns the stream. *)
Definition sseResponse : M FetchResponse :=
  fun w =>
    (Returns (SseResponse [("Content-Type", "text/event-stream");
                           ("Cache-Control", "no-cache");
                           ("Connection", "keep-alive")]),
     w).

(** A request as [fetch] reads it: the method, [origin] and [pathname] of
    [new URL(request.url)], and the headers and body handed on to
    [handlePostMessage]. *)
Record FetchRequest := mkFetch {
  method : string;
  origin : string;
  pathname : string;
  http : Request
}.

(** [McpObject]: the id of the durable object and its transport field,
    unset until the first request. *)
Record McpObject := mkObject { ctx_id : string; transport : option World }.

(** [`${url.origin}${url.pathname.replace('sse', 'message')}`] *)
Definition message_url (request : FetchRequest) : string :=
  origin request ++ replace_first (pathname request) "sse" "message".

Definition is_sse_get (request : FetchRequest) : bool :=
  String.eqb (method request) "GET" && endsWith (pathname request) "/sse".

Definition is_message_post (request : FetchRequest) : bool :=
  String.eqb (method request) "POST" && endsWith (pathname request) "/message".

(** [this.transport] after the first lines of [fetch]. *)
Definition transport_or_new (request : FetchRequest) (obj : McpObject) : World :=
  match transport obj with
  | Some w => w
  | None => new_transport (message_url request) (ctx_id obj)
  end.

(** [fetch].  [server_connect] is [this.server.connect(this.transport)], the
    SDK's call: whatever it does, it does to the transport. *)
Definition fetch (server_connect : M unit) (request : FetchRequest) (obj : McpObject)
  : Completion FetchResponse * McpObject :=
  let w := transport_or_new request obj in
  if is_sse_get request then
    match server_connect w with
    | (Returns _, w1) =>
        let (r, w2) := sseResponse w1 in (r, mkObject (ctx_id obj) (Some w2))
    | (Throws t, w1) => (Throws t, mkObject (ctx_id obj) (Some w1))
    end
  else if is_message_post request then
    match handlePostMessage (http request) w with
    | (Returns response, w1) =>
        (Returns (HttpResponse response), mkObject (ctx_id obj) (Some w1))
    | (Throws t, w1) => (Throws t, mkObject (ctx_id obj) (Some w1))
    end
  else
    (Returns (HttpResponse (mkResponse "Not found" 404)),
     mkObject (ctx_id obj) (Some w)).

(** The object after a series of requests. *)
Definition fetch_each (server_connect : M unit) (requests : list FetchRequest)
    (obj : McpObject) : McpObject :=
  fold_left (fun o r => snd (fetch server_connect r o)) requests obj.

End Lifetime.

(** ** The POST route of the reference server *)

Module ReferenceRoute.

Import ReferenceServer.

(** [app.post("/message", ...)]: [req.query.sessionId] may be missing; an
    unknown id is answered 404, a known one is handed to the transport of
    the server found. *)
Definition post_message (sessionId : option string) (servers : list McpServer)
  : Response + McpServer :=
  match sessionId with
  | None => inl (mkResponse "Session not found" 404)
  | Some id =>
      match lookup id servers with
      | None => inl (mkResponse "Session not found" 404)
      | Some server => inr server
      end
  end.

Definition third_server : McpServer := mkServer 3 "77bc".

End ReferenceRoute.

(** ** The connection guard of the chat agent ([src/server.ts]) *)

Module ChatAgent.

Inductive Client := TheClient.
Inductive SSEClientTransport := TheClientTransport.

(** Calls the agent makes on the MCP client. *)
Inductive ClientCall := CallConnect | CallClose.

Section Agent.

(** The tools of a [listTools] response. *)
Variable ToolSet : Type.

Record Chat := mkChat {
  mcpClient : option Client;
  mcpTransport : option SSEClientTransport;
  mcpConnectionAttempted : bool;
  mcpTools : ToolSet;
  calls : list ClientCall
}.

(** What the awaited calls of one attempt come to: something threw
    ([connect], [getServerCapabilities] or [listTools]), or [listTools]
    answered, with or without a [tools] field. *)
Definition Attempt : Type := Thrown + option ToolSet.

(** [connectToMcpServer] up to its first [await]: the flag is set, the
    transport and the client are created and [connect] is called. *)
Definition connect_begin (c : Chat) : Chat :=
  mkChat (Some TheClient) (Some TheClientTransport) true (mcpTools c)
         (calls c ++ [CallConnect]).

(** ... and from there on.  [no_tools] is the empty object of
    [toolsResponse.tools || {}]. *)
Definition connect_end (no_tools : ToolSet) (attempt : Attempt) (c : Chat) : bool * Chat :=
  match attempt with
  | inr tools =>
      (true,
       mkChat (mcpClient c) (mcpTransport c) (mcpConnectionAttempted c)
              (match tools with Some t => t | None => no_tools end)
              (calls c))
  | inl _ =>
      (false, mkChat None None (mcpConnectionAttempted c) (mcpTools c) (calls c))
  end.

Definition connectToMcpServer (no_tools : ToolSet) (attempt : Attempt) (c : Chat)
  : bool * Chat :=
  if mcpConnectionAttempted c then
    (match mcpClient c with Some _ => true | None => false end, c)
  else connect_end no_tools attempt (connect_begin c).

(** [cleanup]: [closing] is what [this.mcpClient.close()] comes to; a throw
    is caught and logged, and the [finally] block runs either way. *)
Definition cleanup (closing : Completion unit) (c : Chat) : Completion unit * Chat :=
  match mcpClient c with
  | Some _ =>
      (match closing with
       | Returns _ => Returns tt
       | Throws _ => Returns tt
       end,
       mkChat None None (mcpConnectionAttempted c) (mcpTools c)
              (calls c ++ [CallClose]))
  | None => (Returns tt, c)
  end.

(** A new agent. *)
Definition new_chat (no_tools : ToolSet) : Chat := mkChat None None false no_tools [].

(** Calling [connectToMcpServer] once per attempt of a list. *)
Fixpoint connect_each (no_tools : ToolSet) (attempts : list Attempt) (c : Chat)
  : list bool * Chat :=
  match attempts with
  | [] => ([], c)
  | a :: rest =>
      let (b, c1) := connectToMcpServer no_tools a c in
      let (bs, c2) := connect_each no_tools rest c1 in
      (b :: bs, c2)
  end.

End Agent.

End ChatAgent.

(** ** More worlds and requests for the concrete runs *)

Definition closed_world : @World sample_platform := run [DoClose] started_world.

(** A transport whose stream the peer cancelled before [start]. *)
Definition cancelled_world : @World sample_platform := run [PeerCancel] fresh_world.

(** A [text/plain] POST whose header value mentions [application/json] in a
    parameter. *)
Definition disguised_post (body : string) : Request :=
  mkRequest [("Content-Type", "text/plain; note=application/json")] body.

Definition message_post (path body : string) : FetchRequest :=
  mkFetch "POST" "https://host.example" path (json_post body).

Definition new_object : @McpObject sample_platform := mkObject "do-1" None.

Definition other_request : FetchRequest :=
  mkFetch "GET" "https://host.example" "/favicon.ico" (mkRequest [] "").

Definition sample_servers : list ReferenceServer.McpServer :=
  [ReferenceServer.first_server; ReferenceRoute.third_server].

Definition new_agent : ChatAgent.Chat (list string) := ChatAgent.new_chat (list string) [].

Definition connected_agent : ChatAgent.Chat (list string) :=
  snd (ChatAgent.connectToMcpServer (list string) [] (inr (Some ["add"])) new_agent).

(** * Properties *)

(** ** The string functions on examples *)

Example includes_examples :
  includes "application/json; charset=utf-8" "application/json" = true /\
  includes "text/plain" "application/json" = false /\
  includes "" "application/json" = false.
Proof. repeat split. Qed.

Example parseInt10_examples :
  parseInt10 "4194305" = Some 4194305%Z /\
  parseInt10 "  42abc" = Some 42%Z /\
  parseInt10 "-7" = Some (-7)%Z /\
  parseInt10 "12.5" = Some 12%Z /\
  parseInt10 "abc" = None /\
  parseInt10 "" = None /\
  parseInt10 "-" = None.
Proof. repeat split. Qed.

Example Headers_get_examples :
  Headers_get [("Content-Type", "text/plain")] "content-type" = Some "text/plain" /\
  Headers_get [("Accept", "a"); ("accept", "b")] "Accept" = Some "a, b" /\
  Headers_get [("Content-Type", "text/plain")] "content-length" = None.
Proof. repeat split. Qed.

Example encodeURI_examples :
  encodeURI "https://host.example/a b/message" = "https://host.example/a%20b/message" /\
  encodeURI "/100%" = "/100%25".
Proof. repeat split. Qed.

Lemma encodeURI_plain (s : string) : uri_plain s = true -> encodeURI s = s.
Proof.
  induction s as [|c rest IH]; cbn; [reflexivity|].
  intros H; apply andb_true_iff in H as [Hc Hrest].
  rewrite Hc; cbn; now rewrite (IH Hrest).
Qed.

Section Properties.

Context {platform : Platform}.

(** ** Proof tools *)

Ltac open_world w :=
  let url := fresh "url" in let sid := fresh "sid" in
  let ctrl := fresh "ctrl" in let st := fresh "st" in
  let lk := fresh "lk" in let q := fresh "q" in
  let cr := fresh "cr" in let dl := fresh "dl" in
  let act := fresh "act" in let hm := fresh "hm" in
  let hc := fresh "hc" in let he := fresh "he" in
  let tr := fresh "tr" in
  destruct w as [[url sid ctrl [st lk q cr dl] act hm hc he] tr].

Ltac step_methods :=
  cbv [start send close handleMessage handlePostMessage request_json
       controller_enqueue controller_close underlying_cancel
       ReadableStreamCancel eventStream_cancel peer_lock peer_read peer_cancel
       call_onclose call_onerror call_onmessage lift_result
       bind ret throw try_catch this update emit
       with_stream with_isActive with_handlers connected can_close_or_enqueue
       session_state active_stream_open
       self trace eventStream isActive streamController
       onclose onerror onmessage endpointUrl sessionId
       rs_state rs_locked rs_queue rs_closeRequested rs_delivered
       negb andb orb fst snd] in *.

Ltac split_cases :=
  repeat match goal with
         | |- context [match ?x with _ => _ end] =>
             lazymatch x with
             | context [match _ with _ => _ end] => fail
             | _ => destruct x eqn:?; cbv beta iota zeta
             end
         end.

(** ** The stream stays open while the transport is active *)

Lemma new_transport_open (url sid : string) :
  active_stream_open (new_transport url sid).
Proof. unfold active_stream_open; cbn; discriminate. Qed.

Lemma exec_keeps_open (a : Action) (w : World) :
  active_stream_open w -> active_stream_open (exec a w).
Proof.
  open_world w; destruct a; unfold exec; step_methods;
    split_cases; step_methods; intuition congruence.
Qed.

Lemma reachable_open (w : World) : reachable w -> active_stream_open w.
Proof.
  induction 1; [apply new_transport_open | now apply exec_keeps_open].
Qed.

Lemma run_reachable (actions : list Action) (w : World) :
  reachable w -> reachable (run actions w).
Proof.
  revert w; induction actions as [|a rest IH]; intros w H; cbn; [assumption|].
  apply IH; now constructor.
Qed.

(** Reachable worlds always carry the controller: the constructor stores it
    and nothing clears it. *)
Lemma reachable_controller (w : World) :
  reachable w -> streamController (self w) = Some ControllerOfEventStream.
Proof.
  induction 1 as [|a w _ IH]; [reflexivity|].
  open_world w; destruct a; unfold exec; step_methods;
    split_cases; step_methods; congruence.
Qed.

(** [Closed] is terminal: no action leaves it. *)
Lemma closed_is_terminal (a : Action) (w : World) :
  session_state (self w) = Closed -> session_state (self (exec a w)) = Closed.
Proof.
  open_world w; destruct a; unfold exec; step_methods;
    split_cases; step_methods; congruence.
Qed.

(** ** [close] and cancellation *)

Lemma close_when_not_active (w : World) :
  isActive (self w) = false -> close w = (Returns tt, w).
Proof.
  open_world w; cbn; intros ->; reflexivity.
Qed.

(** From [Active], when no chunk is waiting in the queue or a reader holds
    the stream, [close] reaches [Closed] and calls [onclose] once. *)
Lemma close_drained_calls_onclose_once (w : World) :
  reachable w ->
  isActive (self w) = true ->
  rs_queue (eventStream (self w)) = [] \/ rs_locked (eventStream (self w)) = true ->
  exists w1,
    close w = (Returns tt, w1) /\
    session_state (self w1) = Closed /\
    trace w1 = (trace w ++ (if onclose (self w) then [CallOnclose] else []))%list.
Proof.
  intros Hr Ha Hq.
  pose proof (reachable_open w Hr Ha) as [Hc Ho].
  open_world w; cbn in Ha, Hq, Hc, Ho; subst act.
  destruct ctrl as [c|]; [clear Hc | congruence].
  unfold can_close_or_enqueue in Ho; cbn in Ho.
  destruct st; [|discriminate]. destruct cr; [discriminate|].
  destruct Hq as [-> | ->].
  - destruct lk, hc; eexists; step_methods; cbn; rewrite ?app_nil_r;
      repeat split; reflexivity.
  - destruct q, hc; eexists; step_methods; cbn; rewrite ?app_nil_r;
      repeat split; reflexivity.
Qed.

(** From [Active], with a chunk waiting and no reader on the stream,
    [eventStream.cancel()] runs the [cancel] callback inside [close]:
    [onclose] is called by the callback and again by [close]. *)
Lemma close_undrained_calls_onclose_twice (w : World) :
  reachable w ->
  isActive (self w) = true ->
  rs_queue (eventStream (self w)) <> [] ->
  rs_locked (eventStream (self w)) = false ->
  exists w1,
    close w = (Returns tt, w1) /\
    session_state (self w1) = Closed /\
    trace w1
      = (trace w ++ (if onclose (self w) then [CallOnclose; CallOnclose] else []))%list.
Proof.
  intros Hr Ha Hq Hl.
  pose proof (reachable_open w Hr Ha) as [Hc Ho].
  open_world w; cbn in Ha, Hq, Hl, Hc, Ho; subst act lk.
  destruct ctrl as [c|]; [clear Hc | congruence].
  unfold can_close_or_enqueue in Ho; cbn in Ho.
  destruct st; [|discriminate]. destruct cr; [discriminate|].
  destruct q as [|chunk rest]; [congruence|].
  destruct hc; eexists; step_methods; cbn; rewrite <- ?app_assoc, ?app_nil_r;
    repeat split; reflexivity.
Qed.

(** After the peer has cancelled, [close] does nothing. *)
Lemma close_after_cancel_is_noop (w : World) :
  rs_state (eventStream (self w)) = Readable ->
  exists w1,
    peer_cancel w = (Returns tt, w1) /\
    trace w1 = (trace w ++ (if onclose (self w) then [CallOnclose] else []))%list /\
    close w1 = (Returns tt, w1).
Proof.
  open_world w; cbn; intros ->.
  destruct hc; eexists; step_methods; cbn; rewrite ?app_nil_r;
    repeat split; reflexivity.
Qed.

(** C1. The claim is that [onclose] is called at most once whatever the
    order of [close] calls and cancellations by the peer.  The code breaks
    it: with the endpoint event still queued, one [close] on an unlocked
    stream calls [onclose] twice (the [cancel] callback run by
    [eventStream.cancel()], then [close] itself), and on a stream held by a
    reader [close] followed by the peer's cancellation calls it twice. *)
Theorem close_with_queued_chunk_calls_onclose_twice (url sid : string) :
  let w1 := run [SetHandlers true true true; DoStart; DoClose]
                (new_transport url sid) in
  let w2 := run [SetHandlers true true true; DoStart; PeerLock; DoClose; PeerCancel]
                (new_transport url sid) in
  trace w1 = [CallOnclose; CallOnclose] /\
  count is_onclose (trace w1) = 2 /\
  trace w2 = [CallOnclose; CallOnclose] /\
  count is_onclose (trace w2) = 2.
Proof.
  cbn; repeat split; reflexivity.
Qed.

(** ** [start] *)

Lemma start_when_active (w : World) :
  isActive (self w) = true ->
  start w = (Throws (ThrownError AlreadyActiveError), w).
Proof.
  open_world w; cbn; intros ->; reflexivity.
Qed.

Lemma start_without_controller (w : World) :
  isActive (self w) = false ->
  streamController (self w) = None ->
  start w = (Throws (ThrownError StreamUnavailableError), w).
Proof.
  open_world w; cbn; intros -> ->; reflexivity.
Qed.

Lemma start_fresh (w : World) :
  isActive (self w) = false ->
  streamController (self w) <> None ->
  can_close_or_enqueue (eventStream (self w)) = true ->
  exists w1,
    start w = (Returns tt, w1) /\
    isActive (self w1) = true /\
    trace w1 = trace w /\
    chunks (eventStream (self w1))
      = (chunks (eventStream (self w)) ++ [endpoint_event (self w)])%list.
Proof.
  open_world w; cbn; intros -> Hc Ho.
  destruct ctrl; [|congruence].
  eexists; unfold start, bind, this; cbn.
  unfold controller_enqueue, bind, this; cbn; rewrite Ho; cbn.
  repeat split; unfold chunks; cbn; apply app_assoc.
Qed.

Lemma repeated_start_stays (w : World) (n : nat) :
  isActive (self w) = true -> run (repeat DoStart n) w = w.
Proof.
  intros Ha; induction n as [|n IH]; [reflexivity|].
  change (run (repeat DoStart (S n)) w)
    with (run (repeat DoStart n) (snd (start w))).
  rewrite (start_when_active w Ha); exact IH.
Qed.

Lemma start_on_closed_stream (w : World) :
  isActive (self w) = false ->
  streamController (self w) <> None ->
  can_close_or_enqueue (eventStream (self w)) = false ->
  start w = (Throws (ThrownError StreamTypeError), w).
Proof.
  open_world w; cbn; intros -> Hc Ho.
  destruct ctrl; [|congruence].
  unfold start, controller_enqueue, bind, this; cbn; rewrite Ho; reflexivity.
Qed.

Lemma repeated_start_fails (w : World) (t : Thrown) (n : nat) :
  start w = (Throws t, w) -> run (repeat DoStart n) w = w.
Proof.
  intros H; induction n as [|n IH]; [reflexivity|].
  change (run (repeat DoStart (S n)) w)
    with (run (repeat DoStart n) (snd (start w))).
  rewrite H; exact IH.
Qed.

(** C2, as the code has it.  For a transport that is not active and whose
    endpoint URL is a well-formed string, so that [encodeURI] returns:
    - if the controller field is null, [start] fails with
      [StreamUnavailableError];
    - if the stream still takes chunks, the first [start] succeeds, the
      next fails with [AlreadyActiveError], and however many times [start]
      is called the stream is given exactly one endpoint event,
      [event: endpoint], then [data: ] with the encoded POST URL,
      [?sessionId=] and the session id, then an empty line;
    - if the stream was cancelled or closed before, every [start] fails
      with the controller's [TypeError] and no endpoint event is queued. *)
Theorem start_once_on_open_stream (w : World) :
  well_formed_unicode (endpointUrl (self w)) = true ->
  isActive (self w) = false ->
  (streamController (self w) = None ->
     start w = (Throws (ThrownError StreamUnavailableError), w)) /\
  (streamController (self w) <> None ->
   can_close_or_enqueue (eventStream (self w)) = true ->
     exists w1,
       start w = (Returns tt, w1) /\
       start w1 = (Throws (ThrownError AlreadyActiveError), w1) /\
       forall n,
         chunks (eventStream (self (run (repeat DoStart (S n)) w)))
           = (chunks (eventStream (self w)) ++
              [("event: endpoint" ++ LF ++ "data: " ++ encodeURI (endpointUrl (self w))
                  ++ "?sessionId=" ++ sessionId (self w) ++ LF ++ LF)%string])%list) /\
  (streamController (self w) <> None ->
   can_close_or_enqueue (eventStream (self w)) = false ->
     exists e,
       start w = (Throws (ThrownError e), w) /\
       name e = "TypeError" /\
       forall n, run (repeat DoStart n) w = w).
Proof.
  intros _ Ha; split; [|split].
  - intros Hc; now apply start_without_controller.
  - intros Hc Ho.
    destruct (start_fresh w Ha Hc Ho) as (w1 & Hs & Ha1 & _ & Hq).
    exists w1; split; [exact Hs|]; split; [now apply start_when_active|].
    intros n.
    change (run (repeat DoStart (S n)) w)
      with (run (repeat DoStart n) (snd (start w))).
    rewrite Hs; cbn [snd].
    rewrite (repeated_start_stays w1 n Ha1); exact Hq.
  - intros Hc Ho.
    pose proof (start_on_closed_stream w Ha Hc Ho) as Hs.
    exists StreamTypeError; split; [exact Hs|]; split; [reflexivity|].
    intros n; exact (repeated_start_fails w _ n Hs).
Qed.

(** Every reachable transport has its controller: [StreamUnavailableError]
    is not an error [start] can give after the constructor has run. *)
Lemma start_never_unavailable (w : World) :
  reachable w ->
  fst (start w) <> Throws (ThrownError StreamUnavailableError).
Proof.
  intros Hr; pose proof (reachable_controller w Hr) as Hc.
  open_world w; cbn in Hc; subst ctrl.
  unfold start, controller_enqueue, bind, this, update, throw; cbn.
  destruct act; [discriminate|].
  destruct (can_close_or_enqueue _); cbn; discriminate.
Qed.

(** ** [send] *)

Lemma active_iff (t : Transport) :
  session_state t = Active <-> isActive t = true.
Proof.
  unfold session_state; destruct (isActive t);
    [|destruct (can_close_or_enqueue _)]; split; congruence.
Qed.

Lemma reachable_connected (w : World) :
  reachable w -> connected (self w) = isActive (self w).
Proof.
  intros Hr; unfold connected; rewrite (reachable_controller w Hr).
  apply andb_true_r.
Qed.

(** C3. On every reachable transport, [send] outside [Active] (before
    [start] or after the close) fails with [NotConnectedError] and leaves
    the world as it was; in [Active] it returns and appends exactly one
    chunk to the queue, the frame [event: message], [data: ] with the JSON
    text, and an empty line. *)
Theorem send_only_while_active (w : World) (m : JSONRPCMessage) :
  reachable w ->
  (session_state (self w) <> Active ->
     send m w = (Throws (ThrownError NotConnectedError), w)) /\
  (session_state (self w) = Active ->
     exists w1,
       send m w = (Returns tt, w1) /\
       rs_queue (eventStream (self w1))
         = (rs_queue (eventStream (self w)) ++
            [("event: message" ++ LF ++ "data: " ++ JSON_stringify m
                ++ LF ++ LF)%string])%list /\
       rs_delivered (eventStream (self w1)) = rs_delivered (eventStream (self w)) /\
       session_state (self w1) = Active /\
       trace w1 = trace w).
Proof.
  intros Hr.
  pose proof (reachable_connected w Hr) as Hc.
  pose proof (reachable_open w Hr) as Ho.
  split; intros Hs.
  - assert (Ha : isActive (self w) = false).
    { destruct (isActive (self w)) eqn:E; [|reflexivity].
      exfalso; apply Hs; now apply active_iff. }
    rewrite Ha in Hc; unfold send, bind, this; cbn; rewrite Hc; reflexivity.
  - apply active_iff in Hs. destruct (Ho Hs) as [_ Hq].
    rewrite Hs in Hc.
    unfold send, bind, this; cbn; rewrite Hc; cbn.
    unfold controller_enqueue, bind, this; cbn; rewrite Hq; cbn.
    eexists; split; [reflexivity|]. cbn.
    repeat split. unfold session_state; cbn; now rewrite Hs.
Qed.

(** ** [handlePostMessage] *)

Notation "x <- c ;; k" := (bind c (fun x => k))
  (at level 61, c at next level, right associativity).
Notation "c ;; k" := (bind c (fun _ => k))
  (at level 61, right associativity).

(** The three early returns of [handlePostMessage], in their order. *)
Lemma handlePostMessage_gates (request : Request) (w : World) :
  handlePostMessage request w =
    if negb (connected (self w)) then
      (Returns (mkResponse "SSE connection not established" 503), w)
    else if negb (json_content_type request) then
      (Returns (mkResponse ("Invalid content type: " ++ content_type request) 415), w)
    else if declared_oversize request then
      (Returns
         (mkResponse
            ("Message exceeds size limit ("
               ++ Number_toString
                    (match declared_length request with Some z => z | None => 0%Z end)
               ++ " > " ++ Number_toString MAX_MSG_SIZE ++ ")")
            413), w)
    else
      try_catch
        (messageData <- request_json request ;;
         handleMessage messageData ;;
         ret (mkResponse "Message processed" 202))
        (fun error =>
           call_onerror (to_Error error) ;;
           ret (mkResponse ("Error processing message: " ++ thrown_message error) 400))
        w.
Proof.
  unfold handlePostMessage, json_content_type, declared_oversize,
    content_type, declared_length.
  unfold bind at 1; unfold this at 1.
  destruct (negb (connected (self w))); [reflexivity|].
  unfold try_catch at 1.
  destruct (negb (includes _ "application/json")); [reflexivity|].
  destruct (number_gt _ MAX_MSG_SIZE); reflexivity.
Qed.

Lemma post_not_connected (w : World) (request : Request) :
  connected (self w) = false ->
  handlePostMessage request w
    = (Returns (mkResponse "SSE connection not established" 503), w).
Proof.
  intros Hc; rewrite handlePostMessage_gates, Hc; reflexivity.
Qed.

Lemma post_wrong_content_type (w : World) (request : Request) :
  connected (self w) = true ->
  json_content_type request = false ->
  handlePostMessage request w
    = (Returns (mkResponse ("Invalid content type: " ++ content_type request) 415), w).
Proof.
  intros Hc Hj; rewrite handlePostMessage_gates, Hc, Hj; reflexivity.
Qed.

Lemma post_declared_oversize (w : World) (request : Request) :
  connected (self w) = true ->
  json_content_type request = true ->
  declared_oversize request = true ->
  exists text,
    handlePostMessage request w = (Returns (mkResponse text 413), w).
Proof.
  intros Hc Hj Hs; rewrite handlePostMessage_gates, Hc, Hj, Hs.
  eexists; reflexivity.
Qed.

(** Past both gates the body is read and decoded; the transport itself is
    left as it was. *)
Lemma post_past_the_gates (w : World) (request : Request) :
  connected (self w) = true ->
  json_content_type request = true ->
  declared_oversize request = false ->
  handlePostMessage request w
    = (Returns (decode_response (req_body request)),
       mkWorld (self w)
               (trace w ++ BodyRead :: decode_events (self w) (req_body request))).
Proof.
  intros Hc Hj Hs; rewrite handlePostMessage_gates, Hc, Hj, Hs.
  cbv beta iota delta [negb].
  open_world w.
  unfold decode_response, decode_events, request_json, handleMessage.
  step_methods; cbn [app].
  destruct (Body_json (req_body request)) as [reason|v].
  - destruct he; cbn; rewrite <- ?app_assoc; reflexivity.
  - destruct (JSONRPCMessageSchema_parse v) as [reason|msg].
    + destruct he, reason; cbn; rewrite <- ?app_assoc; reflexivity.
    + destruct hm; cbn; rewrite <- ?app_assoc; reflexivity.
Qed.

Lemma count_app (p : Event -> bool) (l1 l2 : list Event) :
  count p (l1 ++ l2)%list = count p l1 + count p l2.
Proof. unfold count; now rewrite filter_app, length_app. Qed.

Lemma decode_response_status (body : string) :
  resp_status (decode_response body) = 202%Z \/
  resp_status (decode_response body) = 400%Z.
Proof.
  unfold decode_response.
  destruct (Body_json body) as [?|v]; [now right|].
  destruct (JSONRPCMessageSchema_parse v); [now right | now left].
Qed.

(** Status 413 is decided by the state and the two headers alone. *)
Lemma post_status_413_iff (w : World) (request : Request) :
  answered_status (handlePostMessage request w) = Some 413%Z <->
  connected (self w) = true /\
  json_content_type request = true /\
  declared_oversize request = true.
Proof.
  destruct (connected (self w)) eqn:Hc.
  2:{ rewrite (post_not_connected w request Hc); cbn.
      split; [discriminate | intros (? & _); discriminate]. }
  destruct (json_content_type request) eqn:Hj.
  2:{ rewrite (post_wrong_content_type w request Hc Hj); cbn.
      split; [discriminate | intros (_ & ? & _); discriminate]. }
  destruct (declared_oversize request) eqn:Hs.
  - destruct (post_declared_oversize w request Hc Hj Hs) as [text ->]; cbn.
    now split.
  - rewrite (post_past_the_gates w request Hc Hj Hs); cbn.
    split; [|intros (_ & _ & ?); discriminate].
    destruct (decode_response_status (req_body request)) as [-> | ->];
      discriminate.
Qed.

Lemma reachable_active_connected (w : World) :
  reachable w -> session_state (self w) = Active -> connected (self w) = true.
Proof.
  intros Hr Hs; rewrite (reachable_connected w Hr); now apply active_iff.
Qed.

(** C4. A POST that reaches the decoding step of an [Active] transport
    and whose body fails to parse, or parses and fails the schema, is
    answered 400 with the message of the failure; the installed [onerror]
    handler is called with it; the transport is left as it was, still
    [Active], and neither [onclose] nor [onmessage] is called. *)
Theorem post_decode_failure_keeps_session
    (w : World) (request : Request) (reason : Thrown) :
  reachable w ->
  session_state (self w) = Active ->
  onerror (self w) = true ->
  json_content_type request = true ->
  declared_oversize request = false ->
  (Body_json (req_body request) = inl reason \/
   exists v, Body_json (req_body request) = inr v /\
             JSONRPCMessageSchema_parse v = inl reason) ->
  exists w1,
    handlePostMessage request w
      = (Returns (mkResponse ("Error processing message: " ++ thrown_message reason) 400),
         w1) /\
    In (CallOnerror (to_Error reason)) (trace w1) /\
    count is_onerror (trace w) < count is_onerror (trace w1) /\
    self w1 = self w /\
    session_state (self w1) = Active /\
    count is_onclose (trace w1) = count is_onclose (trace w) /\
    count is_onmessage (trace w1) = count is_onmessage (trace w).
Proof.
  intros Hr Ha He Hj Hs Hfail.
  pose proof (reachable_active_connected w Hr Ha) as Hc.
  rewrite (post_past_the_gates w request Hc Hj Hs).
  unfold decode_response, decode_events; rewrite He.
  destruct Hfail as [-> | (v & -> & ->)]; eexists; (split; [reflexivity|]);
    cbn [self trace]; rewrite !count_app; cbn; repeat split;
    try assumption; try lia; apply in_or_app; right; cbn; tauto.
Qed.

(** C5, as the code has it.  A POST handled by an [Active] transport with
    a JSON content type whose [Content-Length] header declares more than
    4 MiB is answered 413; the world is left as it was, so the body is not
    read and [onmessage] is not called. *)
Theorem post_declared_oversize_rejected
    (w : World) (request : Request) (n : Z) :
  reachable w ->
  session_state (self w) = Active ->
  json_content_type request = true ->
  declared_length request = Some n ->
  (MAX_MSG_SIZE < n)%Z ->
  handlePostMessage request w
    = (Returns
         (mkResponse
            ("Message exceeds size limit (" ++ Number_toString n ++ " > "
               ++ Number_toString MAX_MSG_SIZE ++ ")")
            413),
       w).
Proof.
  intros Hr Ha Hj Hn Hgt.
  pose proof (reachable_active_connected w Hr Ha) as Hc.
  assert (Hs : declared_oversize request = true).
  { unfold declared_oversize; rewrite Hn; cbn; now apply Z.ltb_lt. }
  rewrite handlePostMessage_gates, Hc, Hj, Hs, Hn; reflexivity.
Qed.

(** C6, as the code has it.  On an [Active] transport a POST whose
    [Content-Type] header value does not contain [application/json] (for
    example [text/plain], or no header at all) is
    answered 415; on a transport that is not [Active] every POST is answered
    503.  In both cases the world is left as it was: no handler is called. *)
Theorem post_rejects_non_json_and_inactive (w : World) (request : Request) :
  reachable w ->
  (session_state (self w) = Active ->
   json_content_type request = false ->
   handlePostMessage request w
     = (Returns (mkResponse ("Invalid content type: " ++ content_type request) 415),
        w)) /\
  (session_state (self w) <> Active ->
   handlePostMessage request w
     = (Returns (mkResponse "SSE connection not established" 503), w)).
Proof.
  intros Hr; split.
  - intros Ha Hj.
    exact (post_wrong_content_type w request
             (reachable_active_connected w Hr Ha) Hj).
  - intros Hn; apply post_not_connected.
    rewrite (reachable_connected w Hr).
    destruct (isActive (self w)) eqn:E; [|reflexivity].
    exfalso; apply Hn; now apply active_iff.
Qed.

(** C9. A POST accepted by an [Active] transport whose body parses and
    fails the schema: [handleMessage] calls [onerror] and throws the error
    again, [handlePostMessage] catches it, calls [onerror] a second time
    with the same error and answers 400. *)
Theorem post_validation_failure_calls_onerror_twice
    (w : World) (request : Request) (v : JsValue) (reason : Thrown) :
  reachable w ->
  session_state (self w) = Active ->
  onerror (self w) = true ->
  json_content_type request = true ->
  declared_oversize request = false ->
  Body_json (req_body request) = inr v ->
  JSONRPCMessageSchema_parse v = inl reason ->
  handleMessage v w
    = (Throws (ThrownError (to_Error reason)),
       mkWorld (self w) (trace w ++ [CallOnerror (to_Error reason)])) /\
  handlePostMessage request w
    = (Returns (mkResponse ("Error processing message: " ++ thrown_message reason) 400),
       mkWorld (self w)
               (trace w ++ [BodyRead; CallOnerror (to_Error reason);
                            CallOnerror (to_Error reason)])) /\
  count is_onerror (trace (snd (handlePostMessage request w)))
    = count is_onerror (trace w) + 2.
Proof.
  intros Hr Ha He Hj Hs Hb Hv.
  pose proof (reachable_active_connected w Hr Ha) as Hc.
  rewrite (post_past_the_gates w request Hc Hj Hs).
  unfold decode_response, decode_events; rewrite Hb, Hv, He.
  split; [|split; [reflexivity|]].
  - unfold handleMessage, try_catch, bind, lift_result, call_onerror,
      this, throw, emit; rewrite Hv; cbn; rewrite He; reflexivity.
  - cbn [snd trace]; rewrite count_app; reflexivity.
Qed.

(** C10. The size gate looks at the [Content-Length] header only: a
    missing header counts as 0 and an unparseable one never exceeds the
    cap.  So on an [Active] transport a request with a JSON content type
    whose header is absent, unparseable or declares at most 4 MiB has its
    body read and decoded, whatever the body is and however long, and no
    body can turn the answer into 413. *)
Theorem size_cap_reads_only_the_header (w : World) (request : Request) :
  reachable w ->
  session_state (self w) = Active ->
  json_content_type request = true ->
  (Headers_get (req_headers request) "content-length" = None \/
   declared_length request = None \/
   exists n, declared_length request = Some n /\ (n <= MAX_MSG_SIZE)%Z) ->
  (Headers_get (req_headers request) "content-length" = None ->
   declared_length request = Some 0%Z) /\
  declared_oversize request = false /\
  handlePostMessage request w
    = (Returns (decode_response (req_body request)),
       mkWorld (self w)
               (trace w ++ BodyRead :: decode_events (self w) (req_body request))) /\
  forall body,
    answered_status (handlePostMessage (mkRequest (req_headers request) body) w)
      <> Some 413%Z.
Proof.
  intros Hr Ha Hj Hlen.
  pose proof (reachable_active_connected w Hr Ha) as Hc.
  assert (H0 : Headers_get (req_headers request) "content-length" = None ->
               declared_length request = Some 0%Z).
  { intros Hnone; unfold declared_length; rewrite Hnone; reflexivity. }
  assert (Hs : declared_oversize request = false).
  { unfold declared_oversize.
    destruct Hlen as [Hnone | [Hnan | (n & Hn & Hle)]].
    - rewrite (H0 Hnone); reflexivity.
    - rewrite Hnan; reflexivity.
    - rewrite Hn; cbn; now apply Z.ltb_ge. }
  split; [exact H0|]; split; [exact Hs|]; split.
  - exact (post_past_the_gates w request Hc Hj Hs).
  - intros body H413; apply post_status_413_iff in H413.
    destruct H413 as (_ & _ & Hover).
    change (declared_oversize request = true) in Hover; congruence.
Qed.

End Properties.

(** ** The session list of the reference server *)

Section SessionList.

Import ReferenceServer.

Lemma entries_register (id : string) (s : McpServer) (servers : list McpServer) :
  entries id (register s servers)
    = (entries id servers
         ++ (if String.eqb (transport_sessionId s) id then [s] else []))%list.
Proof.
  unfold entries, register; rewrite filter_app; cbn.
  destruct (String.eqb (transport_sessionId s) id); reflexivity.
Qed.

Lemma lookup_register (id : string) (s : McpServer) (servers : list McpServer) :
  lookup id (register s servers)
    = match lookup id servers with
      | Some found => Some found
      | None => if String.eqb (transport_sessionId s) id then Some s else None
      end.
Proof.
  unfold lookup, register.
  induction servers as [|x rest IH]; cbn.
  - destruct (String.eqb (transport_sessionId s) id); reflexivity.
  - destruct (String.eqb (transport_sessionId x) id); [reflexivity | exact IH].
Qed.

(** C7, as stated, fails on the code: a second session registered under an
    id already in the list is accepted, and the list then holds two entries
    for that id. *)
Lemma duplicate_session_id_registered_twice :
  transport_sessionId first_server = transport_sessionId second_server /\
  register second_server (register first_server []) = [first_server; second_server] /\
  entries "3f2a" (register second_server (register first_server []))
    = [first_server; second_server] /\
  length (entries "3f2a" (register second_server (register first_server []))) <> 1.
Proof.
  cbn; repeat split; discriminate.
Qed.

(** C7, as the code has it.  Registering is [servers.push]: it cannot fail
    and always appends.  After two sessions have been registered under one
    id the list holds both, so two more entries for that id than before,
    and a lookup by the id finds the earliest entry, the first of the two
    when the id was new. *)
Theorem register_keeps_duplicates
    (s1 s2 : McpServer) (servers : list McpServer) :
  transport_sessionId s1 = transport_sessionId s2 ->
  let id := transport_sessionId s1 in
  let servers2 := register s2 (register s1 servers) in
  servers2 = (servers ++ [s1; s2])%list /\
  entries id servers2 = (entries id servers ++ [s1; s2])%list /\
  length (entries id servers2) = length (entries id servers) + 2 /\
  (lookup id servers = None -> lookup id servers2 = Some s1).
Proof.
  intros Hid id servers2; subst id servers2.
  rewrite !entries_register, <- Hid, String.eqb_refl.
  repeat split.
  - unfold register; now rewrite <- app_assoc.
  - now rewrite <- app_assoc.
  - rewrite <- app_assoc, length_app; reflexivity.
  - intros Hnone; rewrite !lookup_register, Hnone, String.eqb_refl; reflexivity.
Qed.

End SessionList.

(** ** Concrete runs *)

Lemma register_keeps_duplicates_witness :
  ReferenceServer.transport_sessionId ReferenceServer.first_server
    = ReferenceServer.transport_sessionId ReferenceServer.second_server /\
  ReferenceServer.register ReferenceServer.second_server
    (ReferenceServer.register ReferenceServer.first_server [])
    = [ReferenceServer.first_server; ReferenceServer.second_server] /\
  ReferenceServer.lookup "3f2a"
    (ReferenceServer.register ReferenceServer.second_server
       (ReferenceServer.register ReferenceServer.first_server []))
    = Some ReferenceServer.first_server.
Proof.
  pose proof (register_keeps_duplicates
                ReferenceServer.first_server ReferenceServer.second_server []
                eq_refl) as (H1 & _ & _ & H4).
  split; [reflexivity|]; split; [exact H1 | exact (H4 eq_refl)].
Defined.

Lemma length_padding (n : nat) : String.length (padding n) = n.
Proof. induction n as [|n IH]; cbn; [reflexivity | now rewrite IH]. Qed.

Lemma length_long_body (n : nat) : String.length (long_body n) = S n.
Proof. cbn; now rewrite length_padding. Qed.

Lemma started_reachable : reachable started_world.
Proof. apply run_reachable; constructor. Qed.

Lemma fresh_reachable : reachable fresh_world.
Proof. constructor. Qed.

Lemma start_once_on_open_stream_witness :
  well_formed_unicode (endpointUrl (self fresh_world)) = true /\
  isActive (self fresh_world) = false /\
  exists w1,
    start fresh_world = (Returns tt, w1) /\
    start w1 = (Throws (ThrownError AlreadyActiveError), w1) /\
    forall n,
      chunks (eventStream (self (run (repeat DoStart (S n)) fresh_world)))
        = [("event: endpoint" ++ LF
              ++ "data: https://host.example/message?sessionId=abc" ++ LF ++ LF)%string].
Proof.
  split; [reflexivity|]; split; [reflexivity|].
  exact (proj1 (proj2 (start_once_on_open_stream fresh_world eq_refl eq_refl))
               ltac:(discriminate) eq_refl).
Defined.

(** C2, as stated, fails on the code.  On a transport whose stream the
    peer cancelled before [start], the first [start] throws the
    controller's [TypeError], the second does the same instead of failing
    with [AlreadyActiveError], and the stream has been given no endpoint
    event at all. *)
Lemma start_after_early_cancel_enqueues_nothing :
  session_state (self cancelled_world) = Closed /\
  (exists e, start cancelled_world = (Throws (ThrownError e), cancelled_world) /\
             name e = "TypeError") /\
  fst (start (run [DoStart] cancelled_world))
    <> Throws (ThrownError AlreadyActiveError) /\
  chunks (eventStream (self (run [DoStart; DoStart] cancelled_world))) = [].
Proof.
  split; [reflexivity|]; split; [|split].
  - exists StreamTypeError; split; reflexivity.
  - cbn; discriminate.
  - reflexivity.
Qed.

Lemma send_only_while_active_witness :
  session_state (self fresh_world) <> Active /\
  @send sample_platform "{}" fresh_world = (Throws (ThrownError NotConnectedError), fresh_world) /\
  session_state (self started_world) = Active /\
  exists w1,
    @send sample_platform "{}" started_world = (Returns tt, w1) /\
    rs_queue (eventStream (self w1))
      = [("event: endpoint" ++ LF
            ++ "data: https://host.example/message?sessionId=abc" ++ LF ++ LF)%string;
         ("event: message" ++ LF ++ "data: {}" ++ LF ++ LF)%string].
Proof.
  split; [discriminate|].
  split.
  - exact (proj1 (@send_only_while_active sample_platform fresh_world "{}" fresh_reachable)
                 ltac:(discriminate)).
  - split; [reflexivity|].
    destruct (proj2 (@send_only_while_active sample_platform started_world "{}"
                       started_reachable) eq_refl)
      as (w1 & Hs & Hq & _).
    exists w1; split; [exact Hs | exact Hq].
Defined.

Lemma post_decode_failure_keeps_session_witness :
  session_state (self started_world) = Active /\
  json_content_type (json_post "oops") = true /\
  declared_oversize (json_post "oops") = false /\
  exists w1,
    handlePostMessage (json_post "oops") started_world
      = (Returns (mkResponse "Error processing message: Unexpected token" 400), w1) /\
    self w1 = self started_world /\
    count is_onclose (trace w1) = 0.
Proof.
  repeat (split; [reflexivity|]).
  destruct (@post_decode_failure_keeps_session sample_platform
              started_world (json_post "oops")
              (ThrownError (mkError "SyntaxError" "Unexpected token"))
              started_reachable eq_refl eq_refl eq_refl eq_refl
              (or_introl eq_refl))
    as (w1 & Hp & _ & _ & Hself & _ & Hclose & _).
  exists w1; split; [exact Hp|]; split; [exact Hself | exact Hclose].
Defined.

Lemma post_declared_oversize_rejected_witness :
  declared_length (declared_post "{}") = Some 4194305%Z /\
  handlePostMessage (declared_post "{}") started_world
    = (Returns (mkResponse "Message exceeds size limit (4194305 > 4194304)" 413),
       started_world).
Proof.
  split; [reflexivity|].
  exact (@post_declared_oversize_rejected sample_platform started_world
           (declared_post "{}") 4194305%Z
           started_reachable eq_refl eq_refl eq_refl eq_refl).
Defined.

Lemma post_rejects_non_json_and_inactive_witness :
  json_content_type (plain_post "{}") = false /\
  handlePostMessage (plain_post "{}") started_world
    = (Returns (mkResponse "Invalid content type: text/plain" 415), started_world) /\
  handlePostMessage (plain_post "{}") fresh_world
    = (Returns (mkResponse "SSE connection not established" 503), fresh_world).
Proof.
  split; [reflexivity|]; split.
  - exact (proj1 (@post_rejects_non_json_and_inactive sample_platform
                    started_world (plain_post "{}") started_reachable)
                 eq_refl eq_refl).
  - exact (proj2 (@post_rejects_non_json_and_inactive sample_platform
                    fresh_world (plain_post "{}") fresh_reachable)
                 ltac:(discriminate)).
Defined.

(** C6, as stated, fails on the code.  The test is
    [contentType.includes('application/json')]: a [text/plain] POST whose
    header value mentions [application/json] in a parameter passes it, its
    body is read, [onmessage] is called and the answer is 202, not 415. *)
Lemma json_substring_content_type_accepted :
  session_state (self started_world) = Active /\
  content_type (disguised_post "{jsonrpc}") = "text/plain; note=application/json" /\
  answered_status (handlePostMessage (disguised_post "{jsonrpc}") started_world)
    = Some 202%Z /\
  trace (snd (handlePostMessage (disguised_post "{jsonrpc}") started_world))
    = [BodyRead; @CallOnmessage sample_platform "{jsonrpc}"].
Proof.
  repeat split.
Qed.

Lemma post_validation_failure_calls_onerror_twice_witness :
  @Body_json sample_platform (req_body (json_post "{}")) = inr "{}" /\
  count is_onerror (trace started_world) = 0 /\
  count is_onerror (trace (snd (handlePostMessage (json_post "{}") started_world))) = 2.
Proof.
  split; [reflexivity|]; split; [reflexivity|].
  exact (proj2 (proj2
    (@post_validation_failure_calls_onerror_twice sample_platform
       started_world (json_post "{}") "{}"
       (ThrownError (mkError "ZodError" "Invalid input"))
       started_reachable eq_refl eq_refl eq_refl eq_refl eq_refl eq_refl))).
Defined.

Lemma size_cap_reads_only_the_header_witness :
  Headers_get (req_headers (json_post "{}")) "content-length" = None /\
  declared_length (json_post "{}") = Some 0%Z /\
  forall body,
    answered_status (handlePostMessage (json_post body) started_world) <> Some 413%Z.
Proof.
  split; [reflexivity|]; split; [reflexivity|].
  destruct (@size_cap_reads_only_the_header sample_platform
              started_world (json_post "{}")
              started_reachable eq_refl eq_refl (or_introl eq_refl))
    as (_ & _ & _ & Hany).
  exact Hany.
Defined.

(** Whatever the body, a JSON POST without a [Content-Length] header has it
    read by a started transport. *)
Lemma undeclared_body_is_read (body : string) :
  answered_status (handlePostMessage (json_post body) started_world) <> Some 413%Z /\
  In BodyRead (trace (snd (handlePostMessage (json_post body) started_world))).
Proof.
  rewrite (@post_past_the_gates sample_platform started_world (json_post body)
             eq_refl eq_refl eq_refl).
  split.
  - unfold answered_status; cbn [fst].
    destruct (@decode_response_status sample_platform body) as [H | H];
      cbn [req_body json_post] in *; rewrite H; discriminate.
  - cbn [snd trace]; apply in_or_app; right; left; reflexivity.
Qed.

(** C5, as stated, fails on the code.  A body of 4 MiB and one byte sent
    with a JSON content type and no [Content-Length] header is read and
    decoded instead of being answered 413; sent as [text/plain] it is
    answered 415, even with its length declared. *)
Lemma oversized_body_not_answered_413 :
  (MAX_MSG_SIZE < Z.of_nat (String.length oversized_body))%Z /\
  session_state (self started_world) = Active /\
  answered_status (handlePostMessage (json_post oversized_body) started_world)
    <> Some 413%Z /\
  In BodyRead
     (trace (snd (handlePostMessage (json_post oversized_body) started_world))) /\
  answered_status (handlePostMessage (plain_post oversized_body) started_world)
    = Some 415%Z.
Proof.
  split.
  { unfold oversized_body.
    rewrite length_long_body, Nat2Z.inj_succ, N_nat_Z; reflexivity. }
  split; [reflexivity|].
  pose proof (undeclared_body_is_read oversized_body) as [H413 Hread].
  split; [exact H413|]; split; [exact Hread|].
  rewrite (@post_wrong_content_type sample_platform started_world
             (plain_post oversized_body) eq_refl eq_refl).
  reflexivity.
Qed.

(** * More properties of the transport *)

Section TransportLifetime.

Context {platform : Platform}.

Ltac crack_world w :=
  let url := fresh "url" in let sid := fresh "sid" in
  let ctrl := fresh "ctrl" in let st := fresh "st" in
  let lk := fresh "lk" in let q := fresh "q" in
  let cr := fresh "cr" in let dl := fresh "dl" in
  let act := fresh "act" in let hm := fresh "hm" in
  let hc := fresh "hc" in let he := fresh "he" in
  let tr := fresh "tr" in
  destruct w as [[url sid ctrl [st lk q cr dl] act hm hc he] tr].

Ltac run_methods :=
  cbv [start send close handleMessage request_json
       controller_enqueue controller_close underlying_cancel
       ReadableStreamCancel eventStream_cancel peer_lock peer_read peer_cancel
       call_onclose call_onerror call_onmessage lift_result
       bind ret throw try_catch this update emit
       with_stream with_isActive with_handlers connected can_close_or_enqueue
       session_state close_calls_left cancel_calls_left
       self trace eventStream isActive streamController
       onclose onerror onmessage endpointUrl sessionId
       rs_state rs_locked rs_queue rs_closeRequested rs_delivered
       negb andb orb fst snd] in *.

Ltac case_split :=
  repeat match goal with
         | |- context [match ?x with _ => _ end] =>
             lazymatch x with
             | context [match _ with _ => _ end] => fail
             | _ => destruct x eqn:?; cbv beta iota zeta
             end
         end.

(** ** [handlePostMessage] as a whole *)

Lemma decode_events_no_onclose (t : Transport) (body : string) :
  count is_onclose (decode_events t body) = 0.
Proof.
  unfold decode_events.
  destruct (Body_json body) as [?|v]; [destruct (onerror t); reflexivity|].
  destruct (JSONRPCMessageSchema_parse v);
    [destruct (onerror t) | destruct (onmessage t)]; reflexivity.
Qed.

(** The four ways a POST can go. *)
Lemma post_outcomes (w : World) (request : Request) :
  (exists response,
     handlePostMessage request w = (Returns response, w) /\
     In (resp_status response) [413; 415; 503]%Z) \/
  (connected (self w) = true /\
   json_content_type request = true /\
   declared_oversize request = false /\
   handlePostMessage request w
     = (Returns (decode_response (req_body request)),
        mkWorld (self w)
                (trace w ++ BodyRead :: decode_events (self w) (req_body request)))).
Proof.
  destruct (connected (self w)) eqn:Hc.
  2:{ left; eexists; split; [now apply post_not_connected | cbn; tauto]. }
  destruct (json_content_type request) eqn:Hj.
  2:{ left; eexists; split; [now apply post_wrong_content_type | cbn; tauto]. }
  destruct (declared_oversize request) eqn:Hs.
  - left. destruct (post_declared_oversize w request Hc Hj Hs) as [text Ht].
    eexists; split; [exact Ht | cbn; tauto].
  - right; repeat split; now apply post_past_the_gates.
Qed.

(** X1. As long as the handlers it calls return normally and do not call
    back into the transport, [handlePostMessage] always answers: every
    failure of its own (a body that does not parse, a value that does not
    validate) is caught and answered; the status is one of 202, 400, 413,
    415 and 503, the transport object is left as it was and [onclose] is
    not called. *)
Theorem post_always_answers (w : World) (request : Request) :
  exists response w1,
    handlePostMessage request w = (Returns response, w1) /\
    In (resp_status response) [202; 400; 413; 415; 503]%Z /\
    self w1 = self w /\
    count is_onclose (trace w1) = count is_onclose (trace w).
Proof.
  destruct (post_outcomes w request) as [(response & Hp & Hin) | (_ & _ & _ & Hp)].
  - exists response, w; split; [exact Hp|]; repeat split.
    cbn in Hin |- *; intuition.
  - eexists _, _; split; [exact Hp|]; repeat split.
    + destruct (decode_response_status (req_body request)) as [-> | ->];
        cbn; tauto.
    + cbn [trace]; rewrite count_app.
      change (BodyRead :: ?l) with ([BodyRead] ++ l)%list.
      rewrite count_app, decode_events_no_onclose; cbn; lia.
Qed.

(** X2. A POST that passes the gates and whose body decodes to a message
    is handed to [onmessage] exactly once, with that message; when the
    handler returns normally the answer is 202 and [onerror] is not
    called. *)
Theorem post_accepted_delivers_once
    (w : World) (request : Request) (v : JsValue) (m : JSONRPCMessage) :
  reachable w ->
  session_state (self w) = Active ->
  onmessage (self w) = true ->
  json_content_type request = true ->
  declared_oversize request = false ->
  Body_json (req_body request) = inr v ->
  JSONRPCMessageSchema_parse v = inr m ->
  handlePostMessage request w
    = (Returns (mkResponse "Message processed" 202),
       mkWorld (self w) (trace w ++ [BodyRead; CallOnmessage m])).
Proof.
  intros Hr Ha Hm Hj Hs Hb Hv.
  rewrite (post_past_the_gates w request
             (reachable_active_connected w Hr Ha) Hj Hs).
  unfold decode_response, decode_events; rewrite Hb, Hv, Hm; reflexivity.
Qed.

(** X3. The rejections 503, 415 and 413 are decided without the body: a
    request answered with one of them leaves the world untouched (the body
    is not read, no handler is called), and the same headers with any
    other body get the same answer. *)
Theorem post_rejections_ignore_body
    (w : World) (headers : Headers) (body other : string) (code : Z) :
  In code [503; 415; 413]%Z ->
  answered_status (handlePostMessage (mkRequest headers body) w) = Some code ->
  snd (handlePostMessage (mkRequest headers body) w) = w /\
  handlePostMessage (mkRequest headers other) w
    = handlePostMessage (mkRequest headers body) w.
Proof.
  intros Hcode Hst.
  assert (Hj2 : json_content_type (mkRequest headers other)
                = json_content_type (mkRequest headers body)) by reflexivity.
  assert (Hs2 : declared_oversize (mkRequest headers other)
                = declared_oversize (mkRequest headers body)) by reflexivity.
  destruct (connected (self w)) eqn:Hc.
  2:{ rewrite !(post_not_connected w _ Hc); split; reflexivity. }
  destruct (json_content_type (mkRequest headers body)) eqn:Hj.
  2:{ rewrite (post_wrong_content_type w _ Hc Hj),
              (post_wrong_content_type w _ Hc Hj2).
      split; reflexivity. }
  destruct (declared_oversize (mkRequest headers body)) eqn:Hs.
  - rewrite !handlePostMessage_gates, Hc, Hj2, Hs2, Hj, Hs.
    split; reflexivity.
  - exfalso.
    rewrite (post_past_the_gates w _ Hc Hj Hs) in Hst.
    unfold answered_status in Hst; cbn [fst req_body] in Hst.
    destruct (decode_response_status body) as [H | H];
      rewrite H in Hst; injection Hst as <-;
      cbn in Hcode; intuition discriminate.
Qed.

(** ** [handleMessage] on its own *)

(** X4. [handleMessage] looks at no state: before [start] or after the
    close it still validates and delivers.  With handlers that return
    normally and do not call back into the transport: either the value is
    a message, [onmessage] is called with it and the method returns; or it
    is not, the failure is given to [onerror] once and thrown as an
    [Error].  The transport is left as it was and [onclose] is not
    called. *)
Theorem handleMessage_needs_no_session (w : World) (raw : JsValue) :
  exists w1,
    self w1 = self w /\
    count is_onclose (trace w1) = count is_onclose (trace w) /\
    ((exists m,
        JSONRPCMessageSchema_parse raw = inr m /\
        handleMessage raw w = (Returns tt, w1) /\
        trace w1
          = (trace w ++ (if onmessage (self w) then [CallOnmessage m] else []))%list) \/
     (exists reason,
        JSONRPCMessageSchema_parse raw = inl reason /\
        handleMessage raw w = (Throws (ThrownError (to_Error reason)), w1) /\
        trace w1
          = (trace w ++ (if onerror (self w)
                         then [CallOnerror (to_Error reason)] else []))%list)).
Proof.
  exists (snd (handleMessage raw w)).
  crack_world w; unfold handleMessage; run_methods.
  destruct (JSONRPCMessageSchema_parse raw) as [reason|m].
  - destruct he; cbn; (split; [reflexivity|]);
      (split; [rewrite ?count_app; cbn; lia|]);
      right; exists reason; rewrite ?app_nil_r; repeat split.
  - destruct hm; cbn; (split; [reflexivity|]);
      (split; [rewrite ?count_app; cbn; lia|]);
      left; exists m; rewrite ?app_nil_r; repeat split.
Qed.

(** ** A closed transport *)

(** X5. A transport that has been closed cannot be started again.  With
    a well-formed endpoint URL, so that [encodeURI] returns, [start] on a
    closed transport throws the [TypeError] of the controller's [enqueue];
    nothing is queued and the transport stays closed, however often it is
    tried. *)
Theorem start_after_close_fails (w : World) :
  reachable w ->
  well_formed_unicode (endpointUrl (self w)) = true ->
  session_state (self w) = Closed ->
  (exists e, start w = (Throws (ThrownError e), w) /\ name e = "TypeError") /\
  forall n, run (repeat DoStart n) w = w.
Proof.
  intros Hr _ Hs.
  pose proof (reachable_controller w Hr) as Hc.
  assert (H1 : start w = (Throws (ThrownError StreamTypeError), w)).
  { unfold session_state in Hs.
    destruct (isActive (self w)) eqn:Ha; [discriminate|].
    destruct (can_close_or_enqueue (eventStream (self w))) eqn:Ho; [discriminate|].
    apply start_on_closed_stream; [exact Ha | congruence | exact Ho]. }
  split; [exists StreamTypeError; split; [exact H1 | reflexivity]|].
  intros n; exact (repeated_start_fails w _ n H1).
Qed.

Lemma run_closed (actions : list Action) (w : World) :
  session_state (self w) = Closed ->
  session_state (self (run actions w)) = Closed.
Proof.
  revert w; induction actions as [|a rest IH]; intros w H; [exact H|].
  apply IH; now apply closed_is_terminal.
Qed.

(** X10. Closing is final: whatever is called on a closed transport
    afterwards, it stays closed, every POST is answered 503 and every
    [send] fails with [NotConnectedError]. *)
Theorem closed_transport_stays_closed
    (w : World) (actions : list Action) (request : Request) (m : JSONRPCMessage) :
  session_state (self w) = Closed ->
  session_state (self (run actions w)) = Closed /\
  handlePostMessage request (run actions w)
    = (Returns (mkResponse "SSE connection not established" 503), run actions w) /\
  send m (run actions w)
    = (Throws (ThrownError NotConnectedError), run actions w).
Proof.
  intros Hs; pose proof (run_closed actions w Hs) as H.
  set (w1 := run actions w) in *; clearbody w1.
  assert (Hc : connected (self w1) = false).
  { unfold session_state in H; unfold connected.
    destruct (isActive (self w1)); [discriminate | reflexivity]. }
  split; [exact H|]; split; [now apply post_not_connected|].
  unfold send, bind, this; cbn; rewrite Hc; reflexivity.
Qed.

(** ** What never changes *)

Lemma post_keeps_transport (w : World) (request : Request) :
  self (snd (handlePostMessage request w)) = self w /\
  count is_onclose (trace (snd (handlePostMessage request w)))
    = count is_onclose (trace w).
Proof.
  destruct (post_outcomes w request) as [(response & -> & _) | (_ & _ & _ & ->)];
    cbn [snd self trace]; split; try reflexivity.
  rewrite count_app.
  change (BodyRead :: ?l) with ([BodyRead] ++ l)%list.
  rewrite count_app, decode_events_no_onclose; cbn; lia.
Qed.

Lemma exec_keeps_identity (a : Action) (w : World) :
  endpointUrl (self (exec a w)) = endpointUrl (self w) /\
  sessionId (self (exec a w)) = sessionId (self w).
Proof.
  destruct a; try (crack_world w; unfold exec; run_methods; case_split;
                   split; reflexivity).
  unfold exec; rewrite (proj1 (post_keeps_transport w request));
    split; reflexivity.
Qed.

(** X6. The endpoint URL and the session id given to the constructor are
    the transport's for good: no sequence of calls, posts, reads or
    cancellations changes either. *)
Theorem identity_never_changes (actions : list Action) (url sid : string) :
  endpointUrl (self (run actions (new_transport url sid))) = url /\
  sessionId (self (run actions (new_transport url sid))) = sid.
Proof.
  assert (H : forall w,
             endpointUrl (self (run actions w)) = endpointUrl (self w) /\
             sessionId (self (run actions w)) = sessionId (self w)).
  { induction actions as [|a rest IH]; intros w; [split; reflexivity|].
    change (run (a :: rest) w) with (run rest (exec a w)).
    destruct (IH (exec a w)) as [-> ->]; apply exec_keeps_identity. }
  exact (H (new_transport url sid)).
Qed.

(** ** Sending *)

Lemma send_appends (w : World) (m : JSONRPCMessage) :
  connected (self w) = true ->
  can_close_or_enqueue (eventStream (self w)) = true ->
  exists w1,
    send m w = (Returns tt, w1) /\
    connected (self w1) = true /\
    can_close_or_enqueue (eventStream (self w1)) = true /\
    rs_queue (eventStream (self w1))
      = (rs_queue (eventStream (self w)) ++ [message_event m])%list /\
    rs_delivered (eventStream (self w1)) = rs_delivered (eventStream (self w)) /\
    trace w1 = trace w.
Proof.
  crack_world w; cbn [self eventStream]; intros Hc Ho.
  unfold send, controller_enqueue, bind, this, update; cbn; rewrite Hc; cbn.
  rewrite Ho; cbn.
  eexists; split; [reflexivity|]; cbn; repeat split; assumption.
Qed.

Lemma sends_append (ms : list JSONRPCMessage) (w : World) :
  connected (self w) = true ->
  can_close_or_enqueue (eventStream (self w)) = true ->
  connected (self (run (map DoSend ms) w)) = true /\
  rs_queue (eventStream (self (run (map DoSend ms) w)))
    = (rs_queue (eventStream (self w)) ++ map message_event ms)%list /\
  rs_delivered (eventStream (self (run (map DoSend ms) w)))
    = rs_delivered (eventStream (self w)) /\
  trace (run (map DoSend ms) w) = trace w.
Proof.
  revert w; induction ms as [|m rest IH]; intros w Hc Ho.
  - cbn; rewrite app_nil_r; repeat split; assumption.
  - change (run (map DoSend (m :: rest)) w)
      with (run (map DoSend rest) (snd (send m w))).
    destruct (send_appends w m Hc Ho) as (w1 & -> & Hc1 & Ho1 & Hq & Hd & Ht).
    cbn [snd]; destruct (IH w1 Hc1 Ho1) as (Hc2 & Hq2 & Hd2 & Ht2).
    rewrite Hq2, Hd2, Ht2, Hq, Hd, Ht, <- app_assoc; repeat split; assumption.
Qed.

(** X7. Messages sent one after another on an active transport are queued
    one frame each, in the order of the calls, behind what was queued
    before; no handler is called and the transport stays active. *)
Theorem sends_are_framed_in_order (w : World) (ms : list JSONRPCMessage) :
  reachable w ->
  session_state (self w) = Active ->
  rs_queue (eventStream (self (run (map DoSend ms) w)))
    = (rs_queue (eventStream (self w)) ++ map message_event ms)%list /\
  rs_delivered (eventStream (self (run (map DoSend ms) w)))
    = rs_delivered (eventStream (self w)) /\
  session_state (self (run (map DoSend ms) w)) = Active /\
  trace (run (map DoSend ms) w) = trace w.
Proof.
  intros Hr Ha.
  pose proof (reachable_active_connected w Hr Ha) as Hc.
  apply active_iff in Ha.
  destruct (reachable_open w Hr Ha) as [_ Ho].
  destruct (sends_append ms w Hc Ho) as (Hc2 & Hq & Hd & Ht).
  repeat split; try assumption.
  apply active_iff. unfold connected in Hc2.
  now apply andb_true_iff in Hc2 as [H _].
Qed.

(** ** Cancellation by the peer *)

(** X8. When the peer cancels a stream that is still readable, in any
    state of the transport and also before [start], the [cancel] callback
    runs: the transport is closed, what was queued is dropped, and an
    installed [onclose] is called once.  A second cancellation finds the
    stream closed and does nothing. *)
Theorem peer_cancel_notifies_once (w : World) :
  rs_state (eventStream (self w)) = Readable ->
  exists w1,
    peer_cancel w = (Returns tt, w1) /\
    session_state (self w1) = Closed /\
    rs_queue (eventStream (self w1)) = [] /\
    rs_delivered (eventStream (self w1)) = rs_delivered (eventStream (self w)) /\
    trace w1 = (trace w ++ (if onclose (self w) then [CallOnclose] else []))%list /\
    peer_cancel w1 = (Returns tt, w1).
Proof.
  crack_world w; cbn; intros ->.
  destruct hc; eexists; run_methods; cbn; rewrite ?app_nil_r;
    repeat split; reflexivity.
Qed.

(** ** A bound on [onclose] *)

Lemma exec_spends_onclose (a : Action) (w : World) :
  count is_onclose (trace (exec a w))
    + close_calls_left (self (exec a w)) + cancel_calls_left (self (exec a w))
  <= count is_onclose (trace w)
       + close_calls_left (self w) + cancel_calls_left (self w).
Proof.
  destruct a;
    try (crack_world w; unfold exec, count; run_methods; case_split;
         cbn [filter length app is_onclose];
         rewrite ?filter_app, ?length_app; cbn; lia).
  unfold exec; destruct (post_keeps_transport w request) as [-> ->]; lia.
Qed.

(** X9. Over the whole life of a transport [onclose] is called at most
    twice: at most once by [close] itself and at most once by the [cancel]
    callback of the stream. *)
Theorem onclose_at_most_twice (actions : list Action) (url sid : string) :
  count is_onclose (trace (run actions (new_transport url sid))) <= 2.
Proof.
  assert (H : forall w,
             count is_onclose (trace (run actions w))
               + close_calls_left (self (run actions w))
               + cancel_calls_left (self (run actions w))
             <= count is_onclose (trace w)
                  + close_calls_left (self w) + cancel_calls_left (self w)).
  { induction actions as [|a rest IH]; intros w; [reflexivity|].
    change (run (a :: rest) w) with (run rest (exec a w)).
    etransitivity; [apply IH | apply exec_spends_onclose]. }
  specialize (H (new_transport url sid)); cbn in H; lia.
Qed.

End TransportLifetime.

(** ** The endpoint event *)

Lemma string_forall_app (p : ascii -> bool) (s1 s2 : string) :
  string_forall p (s1 ++ s2) = string_forall p s1 && string_forall p s2.
Proof.
  induction s1 as [|c rest IH]; cbn; [reflexivity|].
  now rewrite IH, andb_assoc.
Qed.

Lemma percent_encode_output (c : ascii) :
  string_forall uri_output_char (percent_encode c) = true.
Proof.
  destruct c as [[] [] [] [] [] [] [] []]; reflexivity.
Qed.

Lemma uri_output_char_printable (c : ascii) :
  uri_output_char c = true -> 33 <= nat_of_ascii c <= 126.
Proof.
  destruct c as [[] [] [] [] [] [] [] []]; cbn; intros H;
    try discriminate H; lia.
Qed.

(** X11. Whatever the endpoint URL is, what [start] writes between
    [data: ] and [?sessionId=] consists of URI characters and percent
    escapes only, all of them printable ASCII: the URL cannot break the
    line of the endpoint event. *)
Theorem endpoint_url_is_escaped (t : Transport) :
  exists u,
    endpoint_event t
      = "event: endpoint" ++ LF ++ "data: " ++ u
          ++ "?sessionId=" ++ sessionId t ++ LF ++ LF /\
    string_forall uri_output_char u = true /\
    string_forall
      (fun c => ((33 <=? nat_of_ascii c)%nat && (nat_of_ascii c <=? 126)%nat)%bool) u
      = true.
Proof.
  exists (encodeURI (endpointUrl t)); split; [reflexivity|].
  assert (H : forall s, string_forall uri_output_char (encodeURI s) = true).
  { induction s as [|c rest IH]; [reflexivity|].
    cbn [encodeURI]; rewrite string_forall_app, IH, andb_true_r.
    destruct (uri_kept c) eqn:Hk; [|apply percent_encode_output].
    cbn; unfold uri_output_char; now rewrite Hk. }
  split; [apply H|].
  specialize (H (endpointUrl t)).
  induction (encodeURI (endpointUrl t)) as [|c rest IH]; [reflexivity|].
  cbn [string_forall] in H |- *; apply andb_true_iff in H as [Hc Hrest].
  rewrite (IH Hrest), andb_true_r.
  apply uri_output_char_printable in Hc.
  apply andb_true_iff; split; apply Nat.leb_le; lia.
Qed.

(** * More properties of the session list *)

Section SessionListLifetime.

Import ReferenceServer ReferenceRoute.

Lemma unregister_absent (s : McpServer) (servers : list McpServer) :
  Forall (fun x => server_ref x <> server_ref s) servers ->
  unregister s servers = servers.
Proof.
  induction 1 as [|x rest Hx _ IH]; [reflexivity|].
  cbn; apply Nat.eqb_neq in Hx; rewrite Hx; cbn.
  unfold unregister in IH; now rewrite IH.
Qed.

(** X12. Unregistering removes the entries that are the given server
    object and no others; doing it a second time changes nothing. *)
Theorem unregister_removes_only_that_server
    (s x : McpServer) (servers : list McpServer) :
  (In x (unregister s servers) <->
   In x servers /\ server_ref x <> server_ref s) /\
  unregister s (unregister s servers) = unregister s servers.
Proof.
  split.
  - unfold unregister; rewrite filter_In, negb_true_iff, Nat.eqb_neq; tauto.
  - apply unregister_absent, Forall_forall; intros y Hy.
    unfold unregister in Hy; apply filter_In in Hy as [_ Hy].
    now apply negb_true_iff, Nat.eqb_neq in Hy.
Qed.

(** X13. Registering a new server object and unregistering it again gives
    back the list as it was. *)
Theorem register_unregister_round_trip (s : McpServer) (servers : list McpServer) :
  Forall (fun x => server_ref x <> server_ref s) servers ->
  unregister s (register s servers) = servers.
Proof.
  intros H; unfold register, unregister; rewrite filter_app; cbn.
  rewrite Nat.eqb_refl; cbn; rewrite app_nil_r.
  exact (unregister_absent s servers H).
Qed.

(** X14. A session registered under an id no entry carries yet is the one
    a lookup by that id finds; lookups by any other id find what they found
    before. *)
Theorem lookup_after_register
    (id : string) (s : McpServer) (servers : list McpServer) :
  (transport_sessionId s = id ->
   lookup id servers = None ->
   lookup id (register s servers) = Some s) /\
  (transport_sessionId s <> id ->
   lookup id (register s servers) = lookup id servers).
Proof.
  rewrite lookup_register; split.
  - intros <- ->; now rewrite String.eqb_refl.
  - intros Hne; apply String.eqb_neq in Hne; rewrite Hne.
    destruct (lookup id servers); reflexivity.
Qed.

Lemma lookup_unregister_other
    (id : string) (s : McpServer) (servers : list McpServer) :
  Forall (fun x => server_ref x = server_ref s -> x = s) servers ->
  transport_sessionId s <> id ->
  lookup id (unregister s servers) = lookup id servers.
Proof.
  intros Hobj Hne; induction Hobj as [|x rest Hx _ IH]; [reflexivity|].
  unfold lookup, unregister in *; cbn.
  destruct (server_ref x =? server_ref s)%nat eqn:Href; cbn.
  - apply Nat.eqb_eq in Href; rewrite (Hx Href).
    apply String.eqb_neq in Hne; rewrite Hne; exact IH.
  - destruct (String.eqb (transport_sessionId x) id); [reflexivity | exact IH].
Qed.

Lemma lookup_unregister_own (s : McpServer) (servers : list McpServer) :
  Forall (fun x => transport_sessionId x = transport_sessionId s ->
                   server_ref x = server_ref s) servers ->
  lookup (transport_sessionId s) (unregister s servers) = None.
Proof.
  induction 1 as [|x rest Hx _ IH]; [reflexivity|].
  unfold lookup, unregister in *; cbn.
  destruct (server_ref x =? server_ref s)%nat eqn:Href; cbn; [exact IH|].
  destruct (String.eqb_spec (transport_sessionId x) (transport_sessionId s))
    as [Heq | _]; [|exact IH].
  apply Nat.eqb_neq in Href; now elim Href; apply Hx.
Qed.

(** X15. Once a session has been unregistered, a POST carrying its id is
    answered 404, provided no other entry carries that id; POSTs for other
    ids are routed as before, and a POST without a session id is always
    answered 404. *)
Theorem post_after_unregister_not_found
    (s : McpServer) (servers : list McpServer) :
  Forall (fun x => server_ref x = server_ref s -> x = s) servers ->
  Forall (fun x => transport_sessionId x = transport_sessionId s ->
                   server_ref x = server_ref s) servers ->
  post_message (Some (transport_sessionId s)) (unregister s servers)
    = inl (mkResponse "Session not found" 404) /\
  (forall id, id <> transport_sessionId s ->
     post_message (Some id) (unregister s servers) = post_message (Some id) servers) /\
  post_message None (unregister s servers) = inl (mkResponse "Session not found" 404).
Proof.
  intros Hobj Hid; unfold post_message; repeat split.
  - now rewrite lookup_unregister_own.
  - intros id Hne; rewrite lookup_unregister_other; auto.
Qed.

(** X16. In a list of distinct server objects, unregistering one that is
    in it shortens the list by exactly one entry. *)
Theorem unregister_removes_exactly_one (s : McpServer) (servers : list McpServer) :
  NoDup (map server_ref servers) ->
  In s servers ->
  S (length (unregister s servers)) = length servers.
Proof.
  induction servers as [|x rest IH]; intros Hnd Hin; [contradiction|].
  cbn in Hnd; apply NoDup_cons_iff in Hnd as [Hx Hrest].
  destruct Hin as [-> | Hin]; unfold unregister; cbn.
  - rewrite Nat.eqb_refl; cbn.
    change (filter _ rest) with (unregister s rest).
    rewrite unregister_absent; [reflexivity|].
    apply Forall_forall; intros y Hy Heq; apply Hx.
    rewrite <- Heq; now apply in_map.
  - destruct (server_ref x =? server_ref s)%nat eqn:Href.
    + apply Nat.eqb_eq in Href; elim Hx; rewrite Href; now apply in_map.
    + cbn; f_equal; exact (IH Hrest Hin).
Qed.

End SessionListLifetime.

(** * Properties of the durable object *)

Section DurableObjectRoutes.

Context {platform : Platform}.

Variable server_connect : M unit.

Lemma fetch_without_active_transport (request : FetchRequest) (obj : McpObject) :
  is_sse_get request = false ->
  connected (self (transport_or_new request obj)) = false ->
  fetch server_connect request obj
    = (Returns
         (HttpResponse
            (if is_message_post request
             then mkResponse "SSE connection not established" 503
             else mkResponse "Not found" 404)),
       mkObject (ctx_id obj) (Some (transport_or_new request obj))).
Proof.
  intros Hget Hc; unfold fetch; rewrite Hget.
  destruct (is_message_post request); [|reflexivity].
  now rewrite (post_not_connected _ (http request) Hc).
Qed.

(** X17. Until a GET for the stream arrives, the durable object holds a
    new, unstarted transport: it is created by the first request, of
    whatever kind, with the POST URL derived from that request's path, and
    later requests leave it alone; a POST to the message route is answered
    503. *)
Theorem object_without_stream
    (id : string) (first : FetchRequest) (rest : list FetchRequest)
    (post : FetchRequest) :
  Forall (fun r => is_sse_get r = false) (first :: rest) ->
  is_sse_get post = false ->
  is_message_post post = true ->
  let obj := fetch_each server_connect (first :: rest) (mkObject id None) in
  obj = mkObject id (Some (new_transport (message_url first) id)) /\
  fetch server_connect post obj
    = (Returns (HttpResponse (mkResponse "SSE connection not established" 503)), obj).
Proof.
  intros Hall Hget Hpost obj.
  assert (Hobj : obj = mkObject id (Some (new_transport (message_url first) id))).
  { subst obj; inversion Hall as [|r rs Hfirst Hrest]; subst.
    unfold fetch_each; cbn [fold_left].
    rewrite (fetch_without_active_transport first (mkObject id None) Hfirst eq_refl).
    cbn [snd ctx_id transport_or_new transport].
    clear Hall Hfirst.
    induction Hrest as [|r rs Hr _ IH]; [reflexivity|].
    cbn [fold_left].
    rewrite (fetch_without_active_transport r
               (mkObject id (Some (new_transport (message_url first) id)))
               Hr eq_refl).
    exact IH. }
  split; [exact Hobj|].
  rewrite Hobj.
  rewrite (fetch_without_active_transport post
             (mkObject id (Some (new_transport (message_url first) id)))
             Hget eq_refl), Hpost.
  reflexivity.
Qed.

End DurableObjectRoutes.





(** Where [sse] occurs earlier in the path, that occurrence is the one
    replaced. *)
Example message_url_early_sse :
  message_url (mkFetch "GET" "https://host.example" "/assets/sse" (mkRequest [] ""))
    = "https://host.example/amessagets/sse".
Proof. reflexivity. Qed.

(** * Properties of the chat agent's connection guard *)

Section ChatAgentGuard.

Import ChatAgent.

Variable ToolSet : Type.
Variable no_tools : ToolSet.

Lemma connect_after_attempt (attempt : Attempt ToolSet) (c : Chat ToolSet) :
  mcpConnectionAttempted _ c = true ->
  connectToMcpServer ToolSet no_tools attempt c
    = (match mcpClient _ c with Some _ => true | None => false end, c).
Proof.
  intros H; unfold connectToMcpServer; now rewrite H.
Qed.

Lemma connect_each_after_attempt (attempts : list (Attempt ToolSet)) (c : Chat ToolSet) :
  mcpConnectionAttempted _ c = true ->
  connect_each ToolSet no_tools attempts c
    = (repeat (match mcpClient _ c with Some _ => true | None => false end)
              (length attempts), c).
Proof.
  intros H; induction attempts as [|a rest IH]; [reflexivity|].
  cbn [connect_each]; rewrite (connect_after_attempt a c H), IH; reflexivity.
Qed.

(** X19. An agent tries to connect once.  When [connectToMcpServer] is
    called again and again, each call after the one before has completed,
    [connect] is called once, by the first call; every call returns what
    the first returned, true exactly when the first attempt went through;
    after a failed attempt the agent has no client and no tools, and never
    tries again.  (A call made while the first is still waiting is X21.) *)
Theorem connection_attempted_once
    (first : Attempt ToolSet) (later : list (Attempt ToolSet)) :
  let succeeded := match first with inr _ => true | inl _ => false end in
  let results := fst (connect_each ToolSet no_tools (first :: later)
                                   (new_chat ToolSet no_tools)) in
  let c := snd (connect_each ToolSet no_tools (first :: later)
                             (new_chat ToolSet no_tools)) in
  results = repeat succeeded (S (length later)) /\
  calls _ c = [CallConnect] /\
  mcpClient _ c = (if succeeded then Some TheClient else None) /\
  mcpTools _ c = match first with
                 | inr (Some tools) => tools
                 | _ => no_tools
                 end.
Proof.
  intros succeeded results c; subst succeeded results c.
  remember (connect_each ToolSet no_tools (first :: later)
                         (new_chat ToolSet no_tools)) as r eqn:Hr.
  cbn [connect_each] in Hr; unfold connectToMcpServer in Hr.
  destruct first as [failure | [tools|]]; cbn in Hr;
    rewrite connect_each_after_attempt in Hr by reflexivity;
    subst r; cbn; repeat split.
Qed.

(** X20. [cleanup] is final.  On an agent that holds a client it never
    throws, whatever closing the client does; it leaves the agent without
    client and transport but with the tools it had listed; and since the
    attempt flag stays set, a later [connectToMcpServer] returns false
    without connecting again.  A second [cleanup] does nothing. *)
Theorem cleanup_is_final
    (closing again : Completion unit) (attempt : Attempt ToolSet)
    (c : Chat ToolSet) :
  mcpClient _ c <> None ->
  mcpConnectionAttempted _ c = true ->
  let c1 := snd (cleanup ToolSet closing c) in
  fst (cleanup ToolSet closing c) = Returns tt /\
  mcpClient _ c1 = None /\
  mcpTransport _ c1 = None /\
  mcpTools _ c1 = mcpTools _ c /\
  calls _ c1 = (calls _ c ++ [CallClose])%list /\
  connectToMcpServer ToolSet no_tools attempt c1 = (false, c1) /\
  cleanup ToolSet again c1 = (Returns tt, c1).
Proof.
  intros Hclient Hflag; destruct c as [[client|] tr flag tools log];
    [clear Hclient | now elim Hclient].
  cbn in Hflag; subst flag.
  unfold cleanup; cbn.
  destruct closing; repeat split.
Qed.

(** X21. While the first attempt is still waiting for the server, a second
    call of [connectToMcpServer] returns true without connecting, because
    the client object already exists; if the attempt then fails, the calls
    after it return false. *)
Theorem call_during_connection_reports_connected
    (attempt : Attempt ToolSet) (failure : Thrown) (c : Chat ToolSet) :
  mcpConnectionAttempted _ c = false ->
  let waiting := connect_begin ToolSet c in
  let failed := snd (connect_end ToolSet no_tools (inl failure) waiting) in
  connectToMcpServer ToolSet no_tools attempt waiting = (true, waiting) /\
  connectToMcpServer ToolSet no_tools (inl failure) c = (false, failed) /\
  connectToMcpServer ToolSet no_tools attempt failed = (false, failed).
Proof.
  intros Hflag; unfold connectToMcpServer; rewrite Hflag; cbn; repeat split.
Qed.

End ChatAgentGuard.

(** * More concrete runs *)

Lemma closed_reachable : reachable closed_world.
Proof. apply run_reachable, started_reachable. Qed.

Lemma post_accepted_delivers_once_witness :
  session_state (self started_world) = Active /\
  handlePostMessage (json_post "{jsonrpc}") started_world
    = (Returns (mkResponse "Message processed" 202),
       mkWorld (self started_world)
               [BodyRead; @CallOnmessage sample_platform "{jsonrpc}"]).
Proof.
  split; [reflexivity|].
  exact (@post_accepted_delivers_once sample_platform started_world
           (json_post "{jsonrpc}") "{jsonrpc}" "{jsonrpc}"
           started_reachable eq_refl eq_refl eq_refl eq_refl eq_refl eq_refl).
Defined.

Lemma post_rejections_ignore_body_witness :
  answered_status (handlePostMessage (plain_post "{}") started_world) = Some 415%Z /\
  handlePostMessage (plain_post oversized_body) started_world
    = handlePostMessage (plain_post "{}") started_world.
Proof.
  split; [reflexivity|].
  exact (proj2 (@post_rejections_ignore_body sample_platform started_world
                  (req_headers (plain_post "{}")) "{}" oversized_body 415%Z
                  (or_intror (or_introl eq_refl)) eq_refl)).
Defined.

Lemma start_after_close_fails_witness :
  session_state (self closed_world) = Closed /\
  well_formed_unicode (endpointUrl (self closed_world)) = true /\
  (exists e, start closed_world = (Throws (ThrownError e), closed_world) /\
             name e = "TypeError").
Proof.
  split; [reflexivity|]; split; [reflexivity|].
  exact (proj1 (@start_after_close_fails sample_platform closed_world
                  closed_reachable eq_refl eq_refl)).
Defined.

Lemma sends_are_framed_in_order_witness :
  session_state (self started_world) = Active /\
  rs_queue (eventStream (self
     (run [@DoSend sample_platform "{a}"; @DoSend sample_platform "{b}"]
          started_world)))
    = [("event: endpoint" ++ LF
          ++ "data: https://host.example/message?sessionId=abc" ++ LF ++ LF)%string;
       ("event: message" ++ LF ++ "data: {a}" ++ LF ++ LF)%string;
       ("event: message" ++ LF ++ "data: {b}" ++ LF ++ LF)%string].
Proof.
  split; [reflexivity|].
  exact (proj1 (@sends_are_framed_in_order sample_platform started_world
                  ["{a}"; "{b}"] started_reachable eq_refl)).
Defined.

Lemma peer_cancel_notifies_once_witness :
  rs_state (eventStream (self fresh_world)) = Readable /\
  session_state (self fresh_world) = Uninitialized /\
  exists w1,
    peer_cancel fresh_world = (Returns tt, w1) /\
    session_state (self w1) = Closed.
Proof.
  split; [reflexivity|]; split; [reflexivity|].
  destruct (@peer_cancel_notifies_once sample_platform fresh_world eq_refl)
    as (w1 & Hc & Hs & _).
  exists w1; split; [exact Hc | exact Hs].
Defined.

Lemma closed_transport_stays_closed_witness :
  session_state (self closed_world) = Closed /\
  handlePostMessage (json_post "{jsonrpc}") (run [DoStart; PeerLock] closed_world)
    = (Returns (mkResponse "SSE connection not established" 503),
       run [DoStart; PeerLock] closed_world).
Proof.
  split; [reflexivity|].
  exact (proj1 (proj2
    (@closed_transport_stays_closed sample_platform closed_world
       [DoStart; PeerLock] (json_post "{jsonrpc}") "{}" eq_refl))).
Defined.

Lemma register_unregister_round_trip_witness :
  Forall (fun x => ReferenceServer.server_ref x
                   <> ReferenceServer.server_ref ReferenceRoute.third_server)
         [ReferenceServer.first_server] /\
  ReferenceServer.unregister ReferenceRoute.third_server
    (ReferenceServer.register ReferenceRoute.third_server
                              [ReferenceServer.first_server])
    = [ReferenceServer.first_server].
Proof.
  assert (H : Forall (fun x => ReferenceServer.server_ref x
                               <> ReferenceServer.server_ref ReferenceRoute.third_server)
                     [ReferenceServer.first_server]).
  { constructor; [cbn; discriminate | constructor]. }
  split; [exact H|].
  exact (register_unregister_round_trip ReferenceRoute.third_server
           [ReferenceServer.first_server] H).
Defined.

Lemma lookup_after_register_witness :
  ReferenceServer.lookup "77bc" [ReferenceServer.first_server] = None /\
  ReferenceServer.lookup "77bc"
    (ReferenceServer.register ReferenceRoute.third_server
                              [ReferenceServer.first_server])
    = Some ReferenceRoute.third_server /\
  ReferenceServer.lookup "3f2a"
    (ReferenceServer.register ReferenceRoute.third_server
                              [ReferenceServer.first_server])
    = Some ReferenceServer.first_server.
Proof.
  split; [reflexivity|]; split.
  - exact (proj1 (lookup_after_register "77bc" ReferenceRoute.third_server
                    [ReferenceServer.first_server]) eq_refl eq_refl).
  - exact (proj2 (lookup_after_register "3f2a" ReferenceRoute.third_server
                    [ReferenceServer.first_server]) ltac:(discriminate)).
Defined.

Lemma post_after_unregister_not_found_witness :
  ReferenceRoute.post_message (Some "3f2a") sample_servers
    = inr ReferenceServer.first_server /\
  ReferenceRoute.post_message (Some "3f2a")
    (ReferenceServer.unregister ReferenceServer.first_server sample_servers)
    = inl (mkResponse "Session not found" 404) /\
  ReferenceRoute.post_message (Some "77bc")
    (ReferenceServer.unregister ReferenceServer.first_server sample_servers)
    = inr ReferenceRoute.third_server.
Proof.
  split; [reflexivity|].
  assert (H1 : Forall (fun x => ReferenceServer.server_ref x
                                = ReferenceServer.server_ref ReferenceServer.first_server ->
                                x = ReferenceServer.first_server) sample_servers).
  { apply Forall_cons; [intros _; reflexivity|].
    apply Forall_cons; [cbn; intros H; discriminate H | apply Forall_nil]. }
  assert (H2 : Forall (fun x => ReferenceServer.transport_sessionId x
                                = ReferenceServer.transport_sessionId
                                    ReferenceServer.first_server ->
                                ReferenceServer.server_ref x
                                = ReferenceServer.server_ref ReferenceServer.first_server)
                      sample_servers).
  { apply Forall_cons; [intros _; reflexivity|].
    apply Forall_cons; [cbn; intros H; discriminate H | apply Forall_nil]. }
  destruct (post_after_unregister_not_found ReferenceServer.first_server
              sample_servers H1 H2) as (Hown & Hother & _).
  split; [exact Hown|].
  rewrite (Hother "77bc" ltac:(discriminate)); reflexivity.
Defined.

Lemma unregister_removes_exactly_one_witness :
  NoDup (map ReferenceServer.server_ref sample_servers) /\
  S (length (ReferenceServer.unregister ReferenceServer.first_server sample_servers))
    = 2.
Proof.
  assert (H : NoDup (map ReferenceServer.server_ref sample_servers)).
  { cbn; repeat constructor; cbn; intuition discriminate. }
  split; [exact H|].
  exact (unregister_removes_exactly_one ReferenceServer.first_server
           sample_servers H (or_introl eq_refl)).
Defined.

Lemma object_without_stream_witness :
  is_sse_get other_request = false /\
  is_message_post (message_post "/message" "{jsonrpc}") = true /\
  fetch_each start [other_request; message_post "/message" "{jsonrpc}"] new_object
    = mkObject "do-1"
        (Some (new_transport "https://host.example/favicon.ico" "do-1")) /\
  fetch start (message_post "/message" "{jsonrpc}")
    (fetch_each start [other_request; message_post "/message" "{jsonrpc}"] new_object)
    = (Returns (HttpResponse (mkResponse "SSE connection not established" 503)),
       fetch_each start [other_request; message_post "/message" "{jsonrpc}"] new_object).
Proof.
  split; [reflexivity|]; split; [reflexivity|].
  exact (@object_without_stream sample_platform start "do-1" other_request
           [message_post "/message" "{jsonrpc}"]
           (message_post "/message" "{jsonrpc}")
           ltac:(repeat constructor) eq_refl eq_refl).
Defined.


Lemma cleanup_is_final_witness :
  ChatAgent.mcpClient _ connected_agent = Some ChatAgent.TheClient /\
  ChatAgent.mcpClient _
    (snd (ChatAgent.cleanup (list string) (Throws (ThrownValue "closed")) connected_agent))
    = None /\
  ChatAgent.mcpTools _
    (snd (ChatAgent.cleanup (list string) (Throws (ThrownValue "closed")) connected_agent))
    = ["add"].
Proof.
  split; [reflexivity|].
  destruct (cleanup_is_final (list string) [] (Throws (ThrownValue "closed"))
              (Returns tt) (inr None) connected_agent
              ltac:(discriminate) eq_refl)
    as (_ & Hclient & _ & Htools & _).
  split; [exact Hclient | exact Htools].
Defined.

Lemma call_during_connection_reports_connected_witness :
  ChatAgent.mcpConnectionAttempted _ new_agent = false /\
  ChatAgent.connectToMcpServer (list string) [] (inr None)
    (ChatAgent.connect_begin (list string) new_agent)
    = (true, ChatAgent.connect_begin (list string) new_agent).
Proof.
  split; [reflexivity|].
  exact (proj1 (call_during_connection_reports_connected (list string) []
                  (inr None) (ThrownValue "refused") new_agent eq_refl)).
Defined.
